(** * esp-assistant: the UI shell engine, embedded and verified

    A shallow embedding of the five stateful pieces of the firmware's UI
    shell, each translated from its C++ translation unit:

    - [Touch]  : controllers/TouchController.cpp   (gesture recognizer)
    - [Slider] : views/components/CircularSlider.cpp
    - [Hex]    : views/layouts/HexagonalGrid.cpp
    - [Frame]  : hardware/display/FrameBuffer.cpp  (dirty-region tracking)
    - [Nav]    : controllers/NavigationController.cpp

    Conventions.  Fixed-width integers are [Z] with the wrap-around written
    out ([wrap16] for [int16_t], [wrapU32] for [uint32_t]); arithmetic on
    operands promoted to [int] is exact in [Z] and wrapped where the C++
    stores the result into a narrower variable.  Member variables keep their
    [m_] names, member functions their names.  Objects are records and
    every member function is a function from the old object to the new
    one.  [float] quantities are modelled as real numbers (rounding is not
    modelled); the libm functions [sqrt], [cos], [sin], [atan] are those of
    the Reals library. *)

From Stdlib Require Import ZArith List Lia Bool String.
From Stdlib Require Import Reals Lra.
Import ListNotations.

(** ** Machine integers and the float-to-integer cast *)

Module CInt.
Local Open Scope Z_scope.

(** Two's-complement reduction into [int16_t]. *)
Definition wrap16 (z : Z) : Z := (z + 32768) mod 65536 - 32768.

(** Reduction into [uint32_t]. *)
Definition wrapU32 (z : Z) : Z := z mod 4294967296.

Definition int16_range (z : Z) : Prop := -32768 <= z <= 32767.

(** Arduino's [abs(x)] macro, [((x)>0?(x):-(x))], on a promoted [int]. *)
Definition abs (z : Z) : Z := if z >? 0 then z else - z.

(** Arduino's [min]/[max] macros. *)
Definition min (a b : Z) : Z := if a <? b then a else b.
Definition max (a b : Z) : Z := if a >? b then a else b.

(** A C cast of a floating value to an integer type truncates toward
    zero. *)
Definition trunc (r : R) : Z :=
  if Rle_dec 0 r then Int_part r else - Int_part (- r).

(** [(int16_t)(r)]. *)
Definition castInt16 (r : R) : Z := wrap16 (trunc r).

Definition Rltb (a b : R) : bool := if Rlt_dec a b then true else false.
Definition Rleb (a b : R) : bool := if Rle_dec a b then true else false.
Definition Reqb (a b : R) : bool := if Req_dec_T a b then true else false.

(** Two's-complement reduction into a 32-bit [int]. *)
Definition wrapS32 (z : Z) : Z := (z + 2147483648) mod 4294967296 - 2147483648.

End CInt.

(** ** Screen constants (config/Config.h) *)

Module Config.
Local Open Scope Z_scope.
Definition SCREEN_WIDTH : Z := 360.
Definition SCREEN_HEIGHT : Z := 360.
Definition SCREEN_CENTER_X : Z := 180.
Definition SCREEN_CENTER_Y : Z := 180.
Definition HEX_ITEM_RADIUS : Z := 40.
Definition HEX_SPACING : Z := 10.
Definition SCREEN_RADIUS : Z := 180.
End Config.

(** ** TouchController: the gesture recognizer *)

Module Touch.
Import CInt.
Local Open Scope Z_scope.

Definition TAP_MAX_DURATION : Z := 300.
Definition LONG_PRESS_DURATION : Z := 800.
Definition DRAG_THRESHOLD : Z := 10.
Definition SWIPE_THRESHOLD : Z := 50.

Inductive TouchEvent : Type :=
| NONE | TAP | DOUBLE_TAP | LONG_PRESS
| DRAG_START | DRAG_MOVE | DRAG_END
| SWIPE_UP | SWIPE_DOWN | SWIPE_LEFT | SWIPE_RIGHT.

Definition TouchEvent_eqb (a b : TouchEvent) : bool :=
  match a, b with
  | NONE, NONE | TAP, TAP | DOUBLE_TAP, DOUBLE_TAP | LONG_PRESS, LONG_PRESS
  | DRAG_START, DRAG_START | DRAG_MOVE, DRAG_MOVE | DRAG_END, DRAG_END
  | SWIPE_UP, SWIPE_UP | SWIPE_DOWN, SWIPE_DOWN
  | SWIPE_LEFT, SWIPE_LEFT | SWIPE_RIGHT, SWIPE_RIGHT => true
  | _, _ => false
  end.

Record TouchPoint : Type := mkTouchPoint {
  x : Z;            (* int16_t *)
  y : Z;            (* int16_t *)
  pressed : bool;
  timestamp : Z     (* uint32_t *)
}.

(** What one call of [update] reads from its environment: the driver's
    [read(rawData)] (coordinates and the returned flag) and the two
    [millis()] readings the call makes, the first for the timestamp of
    the sample and the second for the start time or the duration. *)
Record Frame : Type := mkFrame {
  raw_x : Z;
  raw_y : Z;
  touched : bool;
  millis_stamp : Z;
  millis_now : Z
}.

Record TouchController : Type := mkTouchController {
  m_currentTouch : TouchPoint;
  m_lastTouch : TouchPoint;
  m_touchStart : TouchPoint;
  m_lastEvent : TouchEvent;
  m_touchStartTime : Z;   (* uint32_t *)
  m_isDragging : bool
}.

(** The constructor. *)
Definition init : TouchController :=
  let zero := mkTouchPoint 0 0 false 0 in
  mkTouchController zero zero zero NONE 0 false.

Definition set_lastEvent (e : TouchEvent) (s : TouchController) :=
  mkTouchController (m_currentTouch s) (m_lastTouch s) (m_touchStart s)
                    e (m_touchStartTime s) (m_isDragging s).

Definition set_isDragging (b : bool) (s : TouchController) :=
  mkTouchController (m_currentTouch s) (m_lastTouch s) (m_touchStart s)
                    (m_lastEvent s) (m_touchStartTime s) b.

Definition resetGestureState (s : TouchController) : TouchController :=
  mkTouchController (m_currentTouch s) (m_lastTouch s) (m_touchStart s)
                    (m_lastEvent s) 0 false.

(** [detectGestures]; [now] is its [millis()] reading. *)
Definition detectGestures (now : Z) (s : TouchController) : TouchController :=
  let deltaX := wrap16 (x (m_currentTouch s) - x (m_touchStart s)) in
  let deltaY := wrap16 (y (m_currentTouch s) - y (m_touchStart s)) in
  let duration := wrapU32 (now - m_touchStartTime s) in
  if negb (m_isDragging s) && (duration >? LONG_PRESS_DURATION)
     && ((abs deltaX <? DRAG_THRESHOLD) && (abs deltaY <? DRAG_THRESHOLD))
  then set_lastEvent LONG_PRESS s
  else if (abs deltaX >? DRAG_THRESHOLD) || (abs deltaY >? DRAG_THRESHOLD)
  then if negb (m_isDragging s)
       then set_isDragging true (set_lastEvent DRAG_START s)
       else set_lastEvent DRAG_MOVE s
  else s.

Definition update (f : Frame) (s : TouchController) : TouchController :=
  let last := m_currentTouch s in
  let cur := mkTouchPoint (raw_x f) (raw_y f) (touched f)
                          (wrapU32 (millis_stamp f)) in
  let s1 := mkTouchController cur last (m_touchStart s) NONE
                              (m_touchStartTime s) (m_isDragging s) in
  if touched f && negb (pressed last) then
    (* touch started *)
    mkTouchController cur last cur NONE (wrapU32 (millis_now f)) false
  else if touched f && pressed last then
    (* touch continuing *)
    detectGestures (millis_now f) s1
  else if negb (touched f) && pressed last then
    (* touch ended *)
    let duration := wrapU32 (millis_now f - m_touchStartTime s1) in
    let s2 := if m_isDragging s1 then set_lastEvent DRAG_END s1
              else if duration <? TAP_MAX_DURATION then set_lastEvent TAP s1
              else s1 in
    resetGestureState s2
  else s1.

(** The main loop: one [update] per frame, then [getLastEvent]. *)
Fixpoint run (s : TouchController) (frames : list Frame) : list TouchEvent :=
  match frames with
  | [] => []
  | f :: rest => let s' := update f s in m_lastEvent s' :: run s' rest
  end.

Definition countEvent (e : TouchEvent) (es : list TouchEvent) : nat :=
  List.length (filter (TouchEvent_eqb e) es).

(** A touch session: a press-edge frame, frames with the finger held
    down, and a release-edge frame. *)
Record Session : Type := mkSession {
  pressFrame : Frame;
  heldFrames : list Frame;
  releaseFrame : Frame
}.

Definition sessionFrames (ss : Session) : list Frame :=
  pressFrame ss :: heldFrames ss ++ [releaseFrame ss].

Definition wellFormedSession (ss : Session) : bool :=
  touched (pressFrame ss)
  && forallb touched (heldFrames ss)
  && negb (touched (releaseFrame ss)).

(** Every sample of the session is less than the drag threshold away from
    the press point, on both axes. *)
Definition stationary (ss : Session) : bool :=
  forallb (fun f =>
             (Z.abs (raw_x f - raw_x (pressFrame ss)) <? DRAG_THRESHOLD)
             && (Z.abs (raw_y f - raw_y (pressFrame ss)) <? DRAG_THRESHOLD))
          (heldFrames ss).

(** The finger stays down for at least [d] milliseconds. *)
Definition heldAtLeast (d : Z) (ss : Session) : bool :=
  d <=? millis_now (releaseFrame ss) - millis_now (pressFrame ss).

(** The recognizer is inside a session in which no drag has started. *)
Definition pressedNoDrag (s : TouchController) : Prop :=
  pressed (m_currentTouch s) = true /\ m_isDragging s = false.

(** A frame with the finger down, less than the drag threshold away from
    the start point of [s] on both axes, read more than the long-press
    duration after the session of [s] started. *)
Definition longHeldFrame (s : TouchController) (f : Frame) : Prop :=
  touched f = true /\
  abs (wrap16 (raw_x f - x (m_touchStart s))) < DRAG_THRESHOLD /\
  abs (wrap16 (raw_y f - y (m_touchStart s))) < DRAG_THRESHOLD /\
  wrapU32 (millis_now f - m_touchStartTime s) > LONG_PRESS_DURATION.

(** A session at 30 Hz pace: pressed at (100,100) when the clock reads
    1000, still there 900 ms and 933 ms later (one pixel of jitter),
    released at 1966. *)
Definition heldStill : Session :=
  mkSession (mkFrame 100 100 true 1000 1000)
            [mkFrame 100 100 true 1900 1900; mkFrame 101 100 true 1933 1933]
            (mkFrame 101 100 false 1966 1966).

(** [isInsideCircle]: the sum of squares is an [int]; it leaves the
    32-bit range only for dx = dy = -32768, where it is reduced. *)
Definition isInsideCircle (px py : Z) : bool :=
  let dx := wrap16 (px - Config.SCREEN_CENTER_X) in
  let dy := wrap16 (py - Config.SCREEN_CENTER_Y) in
  wrapS32 (dx * dx + dy * dy) <=? Config.SCREEN_RADIUS * Config.SCREEN_RADIUS.

(** The recognizer is between sessions. *)
Definition idle (s : TouchController) : Prop :=
  pressed (m_currentTouch s) = false.

(** A frame with the finger down that, measured from the press frame
    [p], has neither moved past the drag threshold nor lasted past the
    long-press duration. *)
Definition quietFrame (p f : Frame) : Prop :=
  touched f = true /\
  abs (wrap16 (raw_x f - raw_x p)) <= DRAG_THRESHOLD /\
  abs (wrap16 (raw_y f - raw_y p)) <= DRAG_THRESHOLD /\
  wrapU32 (millis_now f - wrapU32 (millis_now p)) <= LONG_PRESS_DURATION.

(** The recognizer is inside the session that the press frame [p]
    opened, [dragging] or not. *)
Definition inSession (p : Frame) (dragging : bool) (s : TouchController) : Prop :=
  pressed (m_currentTouch s) = true /\
  m_isDragging s = dragging /\
  x (m_touchStart s) = raw_x p /\ y (m_touchStart s) = raw_y p /\
  m_touchStartTime s = wrapU32 (millis_now p).

(** The events a session that is dragging can report while the finger is
    down. *)
Definition dragEvent (e : TouchEvent) : Prop := e = DRAG_MOVE \/ e = NONE.

(** The events [update] is able to report. *)
Definition producible (e : TouchEvent) : Prop :=
  e = NONE \/ e = TAP \/ e = LONG_PRESS \/
  e = DRAG_START \/ e = DRAG_MOVE \/ e = DRAG_END.

End Touch.

(** ** CircularSlider *)

Module Slider.
Import CInt.
Local Open Scope Z_scope.

(** [normalizeAngle]: the two [while] loops, each unrolled with a bound on
    its iterations that no [int16_t] argument can exhaust
    (32768 / 360 < 92). *)
Fixpoint addWhileNegative (fuel : nat) (angle : Z) : Z :=
  match fuel with
  | O => angle
  | S fuel' =>
      if angle <? 0 then addWhileNegative fuel' (wrap16 (angle + 360))
      else angle
  end.

Fixpoint subWhileAtLeast360 (fuel : nat) (angle : Z) : Z :=
  match fuel with
  | O => angle
  | S fuel' =>
      if angle >=? 360 then subWhileAtLeast360 fuel' (wrap16 (angle - 360))
      else angle
  end.

Definition normalizeAngle (angle : Z) : Z :=
  subWhileAtLeast360 92 (addWhileNegative 92 angle).

(** [distance]: the sum of squares is computed on [int] (it stays below
    2^31 except for dx = dy = -32768, where the C++ overflows) and handed
    to [sqrt]. *)
Definition distance (x1 y1 x2 y2 : Z) : R :=
  let dx := wrap16 (x2 - x1) in
  let dy := wrap16 (y2 - y1) in
  sqrt (IZR (dx * dx + dy * dy)).

(** libm's [atan2] on the integer arguments it is called with. *)
Definition atan2 (dy dx : Z) : R :=
  if 0 <? dx then atan (IZR dy / IZR dx)
  else if dx <? 0 then
    if 0 <=? dy then (atan (IZR dy / IZR dx) + PI)%R
    else (atan (IZR dy / IZR dx) - PI)%R
  else if 0 <? dy then (PI / 2)%R
  else if dy <? 0 then (- (PI / 2))%R
  else 0%R.

Definition RAD_TO_DEG : R := (180 / PI)%R.

Record CircularSlider : Type := mkCircularSlider {
  (* position and size *)
  m_centerX : Z;
  m_centerY : Z;
  m_radius : Z;
  m_innerRadius : Z;
  (* value properties *)
  m_value : R;
  m_minValue : R;
  m_maxValue : R;
  m_targetValue : R;
  (* angle properties *)
  m_startAngle : Z;
  m_endAngle : Z;
  m_currentAngle : Z;
  (* state *)
  m_enabled : bool;
  m_isDragging : bool;
  m_hasChanged : bool;
  (* whether a value-changed callback is installed, and the values it
     has been called with, most recent first *)
  m_onValueChanged : bool;
  notified : list R
}.

(** The constructor (colours, label and mode only matter to drawing and
    are left out). *)
Definition new (centerX centerY radius innerRadius : Z) : CircularSlider :=
  mkCircularSlider (wrap16 centerX) (wrap16 centerY)
                   (wrap16 radius) (wrap16 innerRadius)
                   0%R 0%R 100%R 0%R
                   135 45 135
                   true false false
                   false [].

Definition set_value (v : R) (s : CircularSlider) :=
  mkCircularSlider (m_centerX s) (m_centerY s) (m_radius s) (m_innerRadius s)
    v (m_minValue s) (m_maxValue s) (m_targetValue s)
    (m_startAngle s) (m_endAngle s) (m_currentAngle s)
    (m_enabled s) (m_isDragging s) (m_hasChanged s)
    (m_onValueChanged s) (notified s).

Definition set_range (lo hi : R) (s : CircularSlider) :=
  mkCircularSlider (m_centerX s) (m_centerY s) (m_radius s) (m_innerRadius s)
    (m_value s) lo hi (m_targetValue s)
    (m_startAngle s) (m_endAngle s) (m_currentAngle s)
    (m_enabled s) (m_isDragging s) (m_hasChanged s)
    (m_onValueChanged s) (notified s).

Definition set_targetValue (v : R) (s : CircularSlider) :=
  mkCircularSlider (m_centerX s) (m_centerY s) (m_radius s) (m_innerRadius s)
    (m_value s) (m_minValue s) (m_maxValue s) v
    (m_startAngle s) (m_endAngle s) (m_currentAngle s)
    (m_enabled s) (m_isDragging s) (m_hasChanged s)
    (m_onValueChanged s) (notified s).

Definition set_currentAngle (a : Z) (s : CircularSlider) :=
  mkCircularSlider (m_centerX s) (m_centerY s) (m_radius s) (m_innerRadius s)
    (m_value s) (m_minValue s) (m_maxValue s) (m_targetValue s)
    (m_startAngle s) (m_endAngle s) a
    (m_enabled s) (m_isDragging s) (m_hasChanged s)
    (m_onValueChanged s) (notified s).

Definition set_enabled (b : bool) (s : CircularSlider) :=
  mkCircularSlider (m_centerX s) (m_centerY s) (m_radius s) (m_innerRadius s)
    (m_value s) (m_minValue s) (m_maxValue s) (m_targetValue s)
    (m_startAngle s) (m_endAngle s) (m_currentAngle s)
    b (m_isDragging s) (m_hasChanged s)
    (m_onValueChanged s) (notified s).

Definition set_isDragging (b : bool) (s : CircularSlider) :=
  mkCircularSlider (m_centerX s) (m_centerY s) (m_radius s) (m_innerRadius s)
    (m_value s) (m_minValue s) (m_maxValue s) (m_targetValue s)
    (m_startAngle s) (m_endAngle s) (m_currentAngle s)
    (m_enabled s) b (m_hasChanged s)
    (m_onValueChanged s) (notified s).

Definition set_hasChanged (b : bool) (s : CircularSlider) :=
  mkCircularSlider (m_centerX s) (m_centerY s) (m_radius s) (m_innerRadius s)
    (m_value s) (m_minValue s) (m_maxValue s) (m_targetValue s)
    (m_startAngle s) (m_endAngle s) (m_currentAngle s)
    (m_enabled s) (m_isDragging s) b
    (m_onValueChanged s) (notified s).

Definition add_notified (v : R) (s : CircularSlider) :=
  mkCircularSlider (m_centerX s) (m_centerY s) (m_radius s) (m_innerRadius s)
    (m_value s) (m_minValue s) (m_maxValue s) (m_targetValue s)
    (m_startAngle s) (m_endAngle s) (m_currentAngle s)
    (m_enabled s) (m_isDragging s) (m_hasChanged s)
    (m_onValueChanged s) (v :: notified s).

(** The relative angle of [angle] on the arc that starts at
    [m_startAngle]: the [if] that opens both [calculateAngleFromTouch]'s
    clamping and [calculateValueFromAngle]. *)
Definition relativeTo (startAngle angle : Z) : Z :=
  if angle >=? startAngle then wrap16 (angle - startAngle)
  else wrap16 ((360 - startAngle) + angle).

Definition contains (s : CircularSlider) (px py : Z) : bool :=
  let dist := distance (m_centerX s) (m_centerY s) px py in
  Rleb (IZR (m_innerRadius s)) dist && Rleb dist (IZR (m_radius s)).

(** First half of [calculateAngleFromTouch]: the touch angle in the
    "0 = up" frame. *)
Definition touchAngleDeg (s : CircularSlider) (touchX touchY : Z) : Z :=
  let dx := wrap16 (touchX - m_centerX s) in
  let dy := wrap16 (touchY - m_centerY s) in
  let angleRad := atan2 dy dx in
  let angleDeg := castInt16 (angleRad * RAD_TO_DEG) in
  normalizeAngle (wrap16 (angleDeg + 90)).

(** The relative angle before it is clamped to the 270 degree range. *)
Definition touchRelativeAngle (s : CircularSlider) (touchX touchY : Z) : Z :=
  relativeTo (m_startAngle s) (touchAngleDeg s touchX touchY).

(** The clamp: "snap to nearest end". *)
Definition clampRelativeAngle (relativeAngle : Z) : Z :=
  if relativeAngle >? 270 then
    if relativeAngle >? 315 then 270 else 0
  else relativeAngle.

Definition calculateAngleFromTouch (touchX touchY : Z) (s : CircularSlider)
  : CircularSlider :=
  let relativeAngle := clampRelativeAngle (touchRelativeAngle s touchX touchY) in
  set_currentAngle (normalizeAngle (wrap16 (m_startAngle s + relativeAngle))) s.

Definition calculateValueFromAngle (s : CircularSlider) : CircularSlider :=
  let relativeAngle := relativeTo (m_startAngle s) (m_currentAngle s) in
  let normalizedValue := (IZR relativeAngle / 270)%R in
  let target :=
    (m_minValue s + normalizedValue * (m_maxValue s - m_minValue s))%R in
  set_value target (set_targetValue target s).

Definition setRange (lo hi : R) (s : CircularSlider) : CircularSlider :=
  let s1 := set_range lo hi s in
  let s2 := if Rltb (m_value s1) (m_minValue s1)
            then set_value (m_minValue s1) s1 else s1 in
  let s3 := if Rltb (m_maxValue s2) (m_value s2)
            then set_value (m_maxValue s2) s2 else s2 in
  calculateValueFromAngle s3.

Definition setValue (value : R) (s : CircularSlider) : CircularSlider :=
  let value := if Rltb value (m_minValue s) then m_minValue s else value in
  let value := if Rltb (m_maxValue s) value then m_maxValue s else value in
  if Reqb (m_value s) value then s
  else
    let s1 := set_targetValue value (set_value value s) in
    let normalizedValue :=
      ((m_value s1 - m_minValue s1) / (m_maxValue s1 - m_minValue s1))%R in
    let angleRange := 270 in
    let angle :=
      m_startAngle s1 + castInt16 (normalizedValue * IZR angleRange) in
    set_hasChanged true (set_currentAngle (normalizeAngle (wrap16 angle)) s1).

Definition setEnabled (enabled : bool) (s : CircularSlider) : CircularSlider :=
  let s1 := set_enabled enabled s in
  if negb enabled then set_isDragging false s1 else s1.

(** The smoothing step that closes [update]. *)
Definition smooth (s : CircularSlider) : CircularSlider :=
  if Reqb (m_value s) (m_targetValue s) then s
  else
    let diff := (m_targetValue s - m_value s)%R in
    let s1 := set_value (m_value s + diff * (2 / 10))%R s in
    if Rltb (Rabs diff) (1 / 10)%R then set_value (m_targetValue s1) s1
    else s1.

Definition update (touchPoint : Touch.TouchPoint) (s : CircularSlider)
  : CircularSlider :=
  if negb (m_enabled s) then s
  else
    let isTouching := Touch.pressed touchPoint in
    let touchInBounds :=
      contains s (Touch.x touchPoint) (Touch.y touchPoint) in
    let s1 :=
      if isTouching && touchInBounds then
        let s2 := if negb (m_isDragging s) then set_isDragging true s else s in
        let s3 := calculateAngleFromTouch (Touch.x touchPoint)
                                          (Touch.y touchPoint) s2 in
        let s4 := set_hasChanged true (calculateValueFromAngle s3) in
        if m_onValueChanged s4 then add_notified (m_value s4) s4 else s4
      else if m_isDragging s && negb isTouching then set_isDragging false s
      else s in
    smooth s1.

(** The public operations that change the value or the angle. *)
Inductive Op : Type :=
| OpSetValue (value : R)
| OpSetRange (lo hi : R)
| OpSetEnabled (enabled : bool)
| OpUpdate (touchPoint : Touch.TouchPoint).

Definition apply (s : CircularSlider) (op : Op) : CircularSlider :=
  match op with
  | OpSetValue v => setValue v s
  | OpSetRange lo hi => setRange lo hi s
  | OpSetEnabled b => setEnabled b s
  | OpUpdate tp => update tp s
  end.



(** "angle within [startAngle, startAngle + 270] modulo 360": the angle is
    a normalized one and lies at most 270 degrees past the start angle,
    going round the circle. *)
Definition angleInSweep (s : CircularSlider) : Prop :=
  0 <= m_currentAngle s < 360 /\
  0 <= (m_currentAngle s - m_startAngle s) mod 360 <= 270.



(** The snap branch of [calculateAngleFromTouch] is not taken for the
    touch at [(px, py)] if [contains] accepts it. *)
Definition snapUnreachableAt (s : CircularSlider) (px py : Z) : Prop :=
  contains s px py = true -> touchRelativeAngle s px py <= 270.

End Slider.

(** ** HexagonalGrid *)

Module Hex.
Import CInt Config.
Local Open Scope Z_scope.

Record GridItem : Type := mkGridItem {
  label : option string;     (* const char*, may be null *)
  icon : bool;               (* whether icon data is attached *)
  backgroundColor : Z;
  onTap : option nat;        (* the callback, named by a number; None = null *)
  x : Z;                     (* int16_t, calculated *)
  y : Z;                     (* int16_t, calculated *)
  index : Z;
  visible : bool
}.

Record HexagonalGrid : Type := mkHexagonalGrid {
  m_items : list GridItem;
  m_centerX : Z;
  m_centerY : Z;
  m_itemRadius : Z;
  m_spacing : Z;
  m_scrollOffsetX : Z;
  m_scrollOffsetY : Z;
  m_maxScrollX : Z;
  m_maxScrollY : Z;
  m_hexDistance : R;
  m_smoothScrolling : bool
}.

(** Hexagonal spiral pattern. *)
Definition RING_ITEMS : list Z := [1; 6; 12; 18; 24; 30].

(** The constructor. *)
Definition new (centerX centerY itemRadius spacing : Z) : HexagonalGrid :=
  let itemRadius := wrap16 itemRadius in
  let spacing := wrap16 spacing in
  mkHexagonalGrid [] (wrap16 centerX) (wrap16 centerY) itemRadius spacing
                  0 0 0 0
                  (IZR (itemRadius * 2 + spacing))
                  true.

Definition set_items (items : list GridItem) (g : HexagonalGrid) :=
  mkHexagonalGrid items (m_centerX g) (m_centerY g) (m_itemRadius g)
    (m_spacing g) (m_scrollOffsetX g) (m_scrollOffsetY g)
    (m_maxScrollX g) (m_maxScrollY g) (m_hexDistance g) (m_smoothScrolling g).

Definition set_maxScroll (mx my : Z) (g : HexagonalGrid) :=
  mkHexagonalGrid (m_items g) (m_centerX g) (m_centerY g) (m_itemRadius g)
    (m_spacing g) (m_scrollOffsetX g) (m_scrollOffsetY g)
    mx my (m_hexDistance g) (m_smoothScrolling g).

Definition set_scrollOffset (ox oy : Z) (g : HexagonalGrid) :=
  mkHexagonalGrid (m_items g) (m_centerX g) (m_centerY g) (m_itemRadius g)
    (m_spacing g) ox oy
    (m_maxScrollX g) (m_maxScrollY g) (m_hexDistance g) (m_smoothScrolling g).

Definition item_set_position (px py : Z) (it : GridItem) :=
  mkGridItem (label it) (icon it) (backgroundColor it) (onTap it)
             px py (index it) (visible it).

Definition item_set_visible (b : bool) (it : GridItem) :=
  mkGridItem (label it) (icon it) (backgroundColor it) (onTap it)
             (x it) (y it) (index it) b.

Definition item_set_index (i : Z) (it : GridItem) :=
  mkGridItem (label it) (icon it) (backgroundColor it) (onTap it)
             (x it) (y it) i (visible it).

(** The ring search of [getHexPosition]: the [for] loop over the ring
    table, started with [ring = 0], [itemsBeforeRing = 0] and
    [cumulativeItems = 0].  It returns [(ring, itemsBeforeRing)]; when the
    loop runs through the whole table without [break], [ring] still holds
    its initial 0. *)
Fixpoint ringSearch (rings : list Z) (r : Z)
         (idx cumulativeItems itemsBeforeRing : Z) : Z * Z :=
  match rings with
  | [] => (0, itemsBeforeRing)
  | n :: rest =>
      let cumulativeItems := cumulativeItems + n in
      if idx <? cumulativeItems then (r, itemsBeforeRing)
      else ringSearch rest (r + 1) idx cumulativeItems cumulativeItems
  end.

Definition getHexPosition (g : HexagonalGrid) (idx : Z) : Z * Z :=
  if idx =? 0 then (m_centerX g, m_centerY g)
  else
    let '(ring, itemsBeforeRing) := ringSearch RING_ITEMS 0 idx 0 0 in
    let positionInRing := idx - itemsBeforeRing in
    let itemsInRing := nth (Z.to_nat ring) RING_ITEMS 0 in
    let angle :=
      ((2 * PI * IZR positionInRing) / IZR itemsInRing + PI / 6)%R in
    let radius := (IZR ring * m_hexDistance g)%R in
    (wrap16 (m_centerX g + castInt16 (radius * cos angle)),
     wrap16 (m_centerY g + castInt16 (radius * sin angle))).

(** [calculateItemPositions]: the loop over [i], from [i] on. *)
Fixpoint positionsFrom (g : HexagonalGrid) (i : Z) (items : list GridItem)
  : list GridItem :=
  match items with
  | [] => []
  | it :: rest =>
      let '(px, py) := getHexPosition g i in
      item_set_position px py it :: positionsFrom g (i + 1) rest
  end.

Definition calculateItemPositions (g : HexagonalGrid) : HexagonalGrid :=
  set_items (positionsFrom g 0 (m_items g)) g.

(** The extents loop of [updateScrollBounds], as a running
    [(minX, maxX, minY, maxY)]. *)
Definition extend (acc : Z * Z * Z * Z) (it : GridItem) : Z * Z * Z * Z :=
  let '(minX, maxX, minY, maxY) := acc in
  (if x it <? minX then x it else minX,
   if x it >? maxX then x it else maxX,
   if y it <? minY then y it else minY,
   if y it >? maxY then y it else maxY).

Definition updateScrollBounds (g : HexagonalGrid) : HexagonalGrid :=
  match m_items g with
  | [] => set_maxScroll 0 0 g
  | first :: _ =>
      let '(minX, maxX, minY, maxY) :=
        fold_left extend (m_items g) (x first, x first, y first, y first) in
      let gridWidth := wrap16 (maxX - minX + m_itemRadius g * 2) in
      let gridHeight := wrap16 (maxY - minY + m_itemRadius g * 2) in
      set_maxScroll (wrap16 (max 0 (Z.quot (gridWidth - SCREEN_WIDTH) 2)))
                    (wrap16 (max 0 (Z.quot (gridHeight - SCREEN_HEIGHT) 2)))
                    g
  end.

Definition addItem (item : GridItem) (g : HexagonalGrid) : HexagonalGrid :=
  let newItem :=
    item_set_visible false
      (item_set_index (Z.of_nat (List.length (m_items g))) item) in
  let g1 := set_items (m_items g ++ [newItem]) g in
  updateScrollBounds (calculateItemPositions g1).

Definition isItemVisible (g : HexagonalGrid) (it : GridItem) : bool :=
  let screenX := wrap16 (x it + m_scrollOffsetX g) in
  let screenY := wrap16 (y it + m_scrollOffsetY g) in
  let margin := wrap16 (m_itemRadius g + 10) in
  (screenX >=? - margin) && (screenX <? SCREEN_WIDTH + margin)
  && (screenY >=? - margin) && (screenY <? SCREEN_HEIGHT + margin).

(** [render]; [sprite] tells whether the display driver hands out a
    sprite.  Drawing does not touch the grid and is left out. *)
Definition render (sprite : bool) (g : HexagonalGrid) : HexagonalGrid :=
  if negb sprite then g
  else set_items
         (map (fun it => item_set_visible (isItemVisible g it) it) (m_items g))
         g.

(** The circle test of [getItemAtPosition] for one item. *)
Definition hits (g : HexagonalGrid) (px py : Z) (it : GridItem) : bool :=
  let screenX := wrap16 (x it + m_scrollOffsetX g) in
  let screenY := wrap16 (y it + m_scrollOffsetY g) in
  let dx := wrap16 (px - screenX) in
  let dy := wrap16 (py - screenY) in
  let distSquared := wrap16 (dx * dx + dy * dy) in
  distSquared <=? m_itemRadius g * m_itemRadius g.

(** The scan of [getItemAtPosition] from position [i] on; the result is
    the position in [m_items] of the item found. *)
Fixpoint scanFrom (g : HexagonalGrid) (px py : Z) (i : nat)
         (items : list GridItem) : option nat :=
  match items with
  | [] => None
  | it :: rest =>
      if negb (visible it) then scanFrom g px py (S i) rest
      else if hits g px py it then Some i
      else scanFrom g px py (S i) rest
  end.

Definition getItemAtPosition (g : HexagonalGrid) (px py : Z) : option nat :=
  scanFrom g px py 0%nat (m_items g).

(** [handleTap]: the returned flag and the callback that was invoked. *)
Definition handleTap (g : HexagonalGrid) (px py : Z) : bool * option nat :=
  match getItemAtPosition g px py with
  | Some i =>
      match nth_error (m_items g) i with
      | Some it =>
          match onTap it with
          | Some callback => (true, Some callback)
          | None => (false, None)
          end
      | None => (false, None)
      end
  | None => (false, None)
  end.

Definition handleDrag (deltaX deltaY : Z) (g : HexagonalGrid) : HexagonalGrid :=
  let ox := wrap16 (m_scrollOffsetX g + deltaX) in
  let oy := wrap16 (m_scrollOffsetY g + deltaY) in
  let ox := if ox >? m_maxScrollX g then m_maxScrollX g else ox in
  let ox := if ox <? - m_maxScrollX g then wrap16 (- m_maxScrollX g) else ox in
  let oy := if oy >? m_maxScrollY g then m_maxScrollY g else oy in
  let oy := if oy <? - m_maxScrollY g then wrap16 (- m_maxScrollY g) else oy in
  set_scrollOffset ox oy g.

(** A grid built by the constructor and one [addItem] per item. *)
Definition build (centerX centerY itemRadius spacing : Z)
           (items : list GridItem) : HexagonalGrid :=
  fold_left (fun g it => addItem it g) items
            (new centerX centerY itemRadius spacing).

Definition plainItem : GridItem :=
  mkGridItem None false 0 None 0 0 0 false.

(** "0 = up" placement at 30 degrees and radius [dist]:
    [(centerX + dist sin 30, centerY - dist cos 30)]. *)
Definition upFramePosition (centerX centerY : Z) (dist : R) : R * R :=
  ((IZR centerX + dist * sin (PI / 6))%R,
   (IZR centerY - dist * cos (PI / 6))%R).

(** An integer pixel position is approximately a real one when each
    coordinate is less than a pixel away. *)
Definition approximately (p : Z * Z) (q : R * R) : Prop :=
  (Rabs (IZR (fst p) - fst q) < 1)%R /\ (Rabs (IZR (snd p) - snd q) < 1)%R.

(** The grid of 7 items with [itemRadius = 40] and [spacing = 10]
    around the centre of the screen. *)
Definition sevenItems : HexagonalGrid :=
  build SCREEN_CENTER_X SCREEN_CENTER_Y HEX_ITEM_RADIUS HEX_SPACING
        (repeat plainItem 7).

(** The layout parameters that [getHexPosition] reads. *)
Definition sameLayout (g g' : HexagonalGrid) : Prop :=
  m_centerX g' = m_centerX g /\ m_centerY g' = m_centerY g /\
  m_hexDistance g' = m_hexDistance g.

(** Every item sits where [getHexPosition] puts its position in the
    list. *)
Definition positioned (g : HexagonalGrid) : Prop :=
  forall (k : nat) (it : GridItem),
    nth_error (m_items g) k = Some it ->
    (x it, y it) = getHexPosition g (Z.of_nat k).

(** [m_items.erase(m_items.begin() + index)]. *)
Definition erase (n : nat) (items : list GridItem) : list GridItem :=
  firstn n items ++ skipn (S n) items.

(** The reindexing loop of [removeItem], from position [i] on. *)
Fixpoint reindexFrom (i : Z) (items : list GridItem) : list GridItem :=
  match items with
  | [] => []
  | it :: rest => item_set_index i it :: reindexFrom (i + 1) rest
  end.

Definition removeItem (idx : Z) (g : HexagonalGrid) : HexagonalGrid :=
  if (0 <=? idx) && (idx <? Z.of_nat (List.length (m_items g))) then
    let items := reindexFrom 0 (erase (Z.to_nat idx) (m_items g)) in
    updateScrollBounds (calculateItemPositions (set_items items g))
  else g.

Definition clear (g : HexagonalGrid) : HexagonalGrid :=
  set_scrollOffset 0 0 (set_items [] g).

Definition setScrollOffset (ox oy : Z) (g : HexagonalGrid) : HexagonalGrid :=
  let ox := if ox >? m_maxScrollX g then m_maxScrollX g else ox in
  let ox := if ox <? - m_maxScrollX g then wrap16 (- m_maxScrollX g) else ox in
  let oy := if oy >? m_maxScrollY g then m_maxScrollY g else oy in
  let oy := if oy <? - m_maxScrollY g then wrap16 (- m_maxScrollY g) else oy in
  set_scrollOffset ox oy g.

(** [getItem]: the item, or [None] for the null pointer. *)
Definition getItem (idx : Z) (g : HexagonalGrid) : option GridItem :=
  if (0 <=? idx) && (idx <? Z.of_nat (List.length (m_items g)))
  then nth_error (m_items g) (Z.to_nat idx)
  else None.

(** The operations that change a grid after its construction. *)
Inductive Op : Type :=
| OpAddItem (item : GridItem)
| OpRemoveItem (idx : Z)
| OpClear
| OpRender (sprite : bool)
| OpHandleDrag (deltaX deltaY : Z)
| OpSetScrollOffset (ox oy : Z).

Definition apply (g : HexagonalGrid) (op : Op) : HexagonalGrid :=
  match op with
  | OpAddItem item => addItem item g
  | OpRemoveItem idx => removeItem idx g
  | OpClear => clear g
  | OpRender sprite => render sprite g
  | OpHandleDrag dx dy => handleDrag (wrap16 dx) (wrap16 dy) g
  | OpSetScrollOffset ox oy => setScrollOffset (wrap16 ox) (wrap16 oy) g
  end.

(** What an item shows and does, apart from its number and place. *)
Definition content (it : GridItem) : option string * bool * Z * option nat * bool :=
  (label it, icon it, backgroundColor it, onTap it, visible it).

(** Every item carries its position in the list as its [index]. *)
Definition denselyIndexed (g : HexagonalGrid) : Prop :=
  forall (k : nat) (it : GridItem),
    nth_error (m_items g) k = Some it -> index it = Z.of_nat k.

(** The scroll offset lies within the scroll bounds, which are not
    negative. *)
Definition scrollWithinBounds (g : HexagonalGrid) : Prop :=
  0 <= m_maxScrollX g <= 32767 /\ 0 <= m_maxScrollY g <= 32767 /\
  - m_maxScrollX g <= m_scrollOffsetX g <= m_maxScrollX g /\
  - m_maxScrollY g <= m_scrollOffsetY g <= m_maxScrollY g.

(** Number of slots in the rings before ring [r]: 1 for the centre and
    6k for each ring k from 1 to r - 1. *)
Definition slotsBefore (r : Z) : Z := 1 + 3 * r * (r - 1).

End Hex.

(** ** FrameBuffer: dirty-region tracking *)

Module Frame.
Import CInt Config.
Local Open Scope Z_scope.

Record DirtyRegion : Type := mkDirtyRegion {
  x : Z;        (* int16_t *)
  y : Z;        (* int16_t *)
  width : Z;    (* int16_t *)
  height : Z;   (* int16_t *)
  dirty : bool
}.

(** The two sprites are named 0 and 1; what is pushed to the panel is
    recorded in [flushed], most recent first. *)
Inductive Flush : Type :=
| FlushFull
| FlushRegion (fx fy fw fh : Z).

Record FrameBuffer : Type := mkFrameBuffer {
  m_frontBuffer : nat;
  m_backBuffer : nat;
  m_dirtyRegion : DirtyRegion;
  m_dirtyTracking : bool;
  m_frameCount : Z;     (* uint32_t *)
  m_initialized : bool;
  flushed : list Flush
}.

Definition fullSurface : DirtyRegion :=
  mkDirtyRegion 0 0 SCREEN_WIDTH SCREEN_HEIGHT true.

(** The constructor followed by a successful [init]. *)
Definition new : FrameBuffer :=
  mkFrameBuffer 0 1 fullSurface true 0 true [].

Definition set_dirtyRegion (r : DirtyRegion) (fb : FrameBuffer) :=
  mkFrameBuffer (m_frontBuffer fb) (m_backBuffer fb) r (m_dirtyTracking fb)
                (m_frameCount fb) (m_initialized fb) (flushed fb).

Definition setDirtyTracking (enabled : bool) (fb : FrameBuffer) :=
  mkFrameBuffer (m_frontBuffer fb) (m_backBuffer fb) (m_dirtyRegion fb)
                enabled (m_frameCount fb) (m_initialized fb) (flushed fb).

Definition swapBuffers (fb : FrameBuffer) :=
  mkFrameBuffer (m_backBuffer fb) (m_frontBuffer fb) (m_dirtyRegion fb)
                (m_dirtyTracking fb) (m_frameCount fb) (m_initialized fb)
                (flushed fb).

Definition push (f : Flush) (fb : FrameBuffer) :=
  mkFrameBuffer (m_frontBuffer fb) (m_backBuffer fb) (m_dirtyRegion fb)
                (m_dirtyTracking fb) (wrapU32 (m_frameCount fb + 1))
                (m_initialized fb) (f :: flushed fb).

Definition countFrame (fb : FrameBuffer) :=
  mkFrameBuffer (m_frontBuffer fb) (m_backBuffer fb) (m_dirtyRegion fb)
                (m_dirtyTracking fb) (wrapU32 (m_frameCount fb + 1))
                (m_initialized fb) (flushed fb).

Definition clearDirtyFlags (fb : FrameBuffer) : FrameBuffer :=
  let r := m_dirtyRegion fb in
  set_dirtyRegion (mkDirtyRegion (x r) (y r) (width r) (height r) false) fb.

Definition endFrame (fullUpdate : bool) (fb : FrameBuffer) : FrameBuffer :=
  if negb (m_initialized fb) then fb
  else
    let fb1 := swapBuffers fb in
    if fullUpdate || negb (m_dirtyTracking fb1) then push FlushFull fb1
    else
      let r := m_dirtyRegion fb1 in
      if dirty r
      then clearDirtyFlags (push (FlushRegion (x r) (y r) (width r) (height r)) fb1)
      else countFrame fb1.

Definition markDirty (px py w h : Z) (fb : FrameBuffer) : FrameBuffer :=
  if negb (m_dirtyTracking fb) then fb
  else
    (* clamp to screen bounds *)
    let '(px, w) := if px <? 0 then (0, wrap16 (w + px)) else (px, w) in
    let '(py, h) := if py <? 0 then (0, wrap16 (h + py)) else (py, h) in
    let w := if px + w >? SCREEN_WIDTH then wrap16 (SCREEN_WIDTH - px) else w in
    let h := if py + h >? SCREEN_HEIGHT then wrap16 (SCREEN_HEIGHT - py) else h in
    if (w <=? 0) || (h <=? 0) then fb
    else
      let r := m_dirtyRegion fb in
      if negb (dirty r) then
        set_dirtyRegion (mkDirtyRegion px py w h true) fb
      else
        (* merge with the existing dirty region *)
        let x1 := wrap16 (min (x r) px) in
        let y1 := wrap16 (min (y r) py) in
        let x2 := wrap16 (max (x r + width r) (px + w)) in
        let y2 := wrap16 (max (y r + height r) (py + h)) in
        set_dirtyRegion
          (mkDirtyRegion x1 y1 (wrap16 (x2 - x1)) (wrap16 (y2 - y1)) (dirty r))
          fb.

Definition markAllDirty (fb : FrameBuffer) : FrameBuffer :=
  set_dirtyRegion fullSurface fb.

Definition isDirty (px py w h : Z) (fb : FrameBuffer) : bool :=
  if negb (m_dirtyTracking fb) || negb (dirty (m_dirtyRegion fb)) then false
  else
    let r := m_dirtyRegion fb in
    negb ((px + w <? x r) || (px >? x r + width r)
          || (py + h <? y r) || (py >? y r + height r)).

(** A rectangle as [markDirty] receives it. *)
Record Rect : Type := mkRect { rx : Z; ry : Z; rw : Z; rh : Z }.

Definition markDirtyRect (r : Rect) (fb : FrameBuffer) : FrameBuffer :=
  markDirty (rx r) (ry r) (rw r) (rh r) fb.

(** A rectangle with positive extent that lies on the surface. *)
Definition inBounds (r : Rect) : Prop :=
  0 <= rx r /\ 0 <= ry r /\ 0 < rw r /\ 0 < rh r /\
  rx r + rw r <= SCREEN_WIDTH /\ ry r + rh r <= SCREEN_HEIGHT.

(** Two rectangles that share no pixel. *)
Definition disjoint (a b : Rect) : Prop :=
  rx a + rw a <= rx b \/ rx b + rw b <= rx a \/
  ry a + rh a <= ry b \/ ry b + rh b <= ry a.

(** The bounding box of two rectangles: the smallest rectangle that
    contains both. *)
Definition boundingUnion (a b : Rect) : Rect :=
  let left := Z.min (rx a) (rx b) in
  let top := Z.min (ry a) (ry b) in
  let right := Z.max (rx a + rw a) (rx b + rw b) in
  let bottom := Z.max (ry a + rh a) (ry b + rh b) in
  mkRect left top (right - left) (bottom - top).

Definition regionRect (r : DirtyRegion) : Rect :=
  mkRect (x r) (y r) (width r) (height r).

(** The calls that touch the dirty region, with [int16_t] arguments. *)
Inductive Op : Type :=
| OpMarkDirty (px py w h : Z)
| OpMarkAllDirty
| OpClearDirtyFlags
| OpSetDirtyTracking (enabled : bool)
| OpEndFrame (fullUpdate : bool).

Definition apply (fb : FrameBuffer) (op : Op) : FrameBuffer :=
  match op with
  | OpMarkDirty px py w h =>
      markDirty (wrap16 px) (wrap16 py) (wrap16 w) (wrap16 h) fb
  | OpMarkAllDirty => markAllDirty fb
  | OpClearDirtyFlags => clearDirtyFlags fb
  | OpSetDirtyTracking enabled => setDirtyTracking enabled fb
  | OpEndFrame fullUpdate => endFrame fullUpdate fb
  end.

(** The stored region lies on the surface and has positive extent. *)
Definition regionOnSurface (fb : FrameBuffer) : Prop :=
  inBounds (regionRect (m_dirtyRegion fb)).

(** The pixel [(px, py)] is inside the region that the next partial
    flush will push. *)
Definition pending (fb : FrameBuffer) (px py : Z) : Prop :=
  dirty (m_dirtyRegion fb) = true /\
  x (m_dirtyRegion fb) <= px < x (m_dirtyRegion fb) + width (m_dirtyRegion fb) /\
  y (m_dirtyRegion fb) <= py < y (m_dirtyRegion fb) + height (m_dirtyRegion fb).

(** The pixel [(px, py)] belongs to the rectangle. *)
Definition inRect (px py rx0 ry0 w h : Z) : Prop :=
  rx0 <= px < rx0 + w /\ ry0 <= py < ry0 + h.

Definition onSurface (px py : Z) : Prop :=
  0 <= px < SCREEN_WIDTH /\ 0 <= py < SCREEN_HEIGHT.

End Frame.

(** ** NavigationController: the page router *)

Module Nav.
Local Open Scope string_scope.

(** A live page-view instance: the name of its class and the number the
    allocation got. *)
Record PageView : Type := mkPageView {
  getName : string;
  instance : nat
}.

(** The virtual calls the router makes on pages, and their deletion, in
    the order they happen. *)
Inductive Lifecycle : Type :=
| OnEnter (p : PageView)
| OnExit (p : PageView)
| Deleted (p : PageView).

Record RouteGuard : Type := mkRouteGuard {
  canActivate : string -> bool;     (* decided on the route's path *)
  getRedirectPath : string
}.

Record Route : Type := mkRoute {
  path : string;
  name : string;
  createView : nat -> option PageView;   (* the factory; None = nullptr *)
  guard : option RouteGuard;
  requiresAuth : bool
}.

(** [m_stack] and [m_routes] are vectors: the last element of [m_stack]
    is [back()], the current page. *)
Record NavigationController : Type := mkNavigationController {
  m_stack : list PageView;
  m_routes : list Route;
  m_currentRoute : option Route;
  m_rootRoute : option Route;
  allocated : nat;                  (* pages created so far *)
  history : list Lifecycle          (* most recent first *)
}.

Definition new : NavigationController :=
  mkNavigationController [] [] None None 0 [].

Definition set_stack (st : list PageView) (s : NavigationController) :=
  mkNavigationController st (m_routes s) (m_currentRoute s) (m_rootRoute s)
                         (allocated s) (history s).

Definition set_currentRoute (r : option Route) (s : NavigationController) :=
  mkNavigationController (m_stack s) (m_routes s) r (m_rootRoute s)
                         (allocated s) (history s).

Definition set_routes (rs : list Route) (s : NavigationController) :=
  mkNavigationController (m_stack s) rs (m_currentRoute s) (m_rootRoute s)
                         (allocated s) (history s).

Definition record (e : Lifecycle) (s : NavigationController) :=
  mkNavigationController (m_stack s) (m_routes s) (m_currentRoute s)
                         (m_rootRoute s) (allocated s) (e :: history s).

Definition bump (s : NavigationController) :=
  mkNavigationController (m_stack s) (m_routes s) (m_currentRoute s)
                         (m_rootRoute s) (S (allocated s)) (history s).

(** [findRoute] on a route table. *)
Fixpoint findIn (routes : list Route) (p : string) : option Route :=
  match routes with
  | [] => None
  | route :: rest =>
      if String.eqb (path route) p then Some route else findIn rest p
  end.

Definition findRoute (s : NavigationController) (p : string) : option Route :=
  findIn (m_routes s) p.

Definition registerRoute (route : Route) (s : NavigationController)
  : NavigationController :=
  if existsb (fun existing => String.eqb (path existing) (path route))
             (m_routes s)
  then s
  else set_routes (m_routes s ++ [route]) s.

Definition canActivateRoute (route : Route) : bool :=
  match guard route with
  | Some g => canActivate g (path route)
  | None =>
      if requiresAuth route then true   (* allow all for now *)
      else true
  end.

Definition cleanupPage (page : PageView) (s : NavigationController) :=
  record (Deleted page) s.

(** [m_stack.back()]; it is only called on a stack that has pages. *)
Definition back (st : list PageView) : PageView :=
  last st (mkPageView "" 0).

(** The [while (!m_stack.empty())] loop of [navigateTo]: pop from the
    back and clean up, by recursion on the pages left. *)
Fixpoint clearPages (n : nat) (s : NavigationController) : NavigationController :=
  match n with
  | O => s
  | S n' =>
      match m_stack s with
      | [] => s
      | _ :: _ =>
          let page := back (m_stack s) in
          clearPages n' (cleanupPage page (set_stack (removelast (m_stack s)) s))
      end
  end.

Definition getCurrentPage (s : NavigationController) : option PageView :=
  match m_stack s with
  | [] => None
  | _ :: _ => Some (back (m_stack s))
  end.

Definition getCurrentRoute (s : NavigationController) : option Route :=
  m_currentRoute s.

Definition getStackDepth (s : NavigationController) : nat :=
  List.length (m_stack s).

Definition canGoBack (s : NavigationController) : bool :=
  (1 <? List.length (m_stack s))%nat.

(** [navigateTo].  A null [path] is [None].  The function calls itself on
    a guard's redirect path, and two guards can redirect to each other
    for ever, so the recursion is on [fuel], the number of redirects
    followed plus one; [None] means the fuel ran out. *)
Fixpoint navigateTo (fuel : nat) (p : option string) (clearStack : bool)
         (s : NavigationController) : option (bool * NavigationController) :=
  match fuel with
  | O => None
  | S fuel' =>
      match p with
      | None => Some (false, s)
      | Some p =>
          match findRoute s p with
          | None => Some (false, s)
          | Some route =>
              if negb (canActivateRoute route) then
                match guard route with
                | Some g =>
                    let redirectPath := getRedirectPath g in
                    if negb (String.eqb redirectPath p)
                    then navigateTo fuel' (Some redirectPath) false s
                    else Some (false, s)
                | None => Some (false, s)
                end
              else
                let s1 := if clearStack
                          then clearPages (List.length (m_stack s)) s
                          else s in
                let s2 := match getCurrentPage s1 with
                          | Some cur => record (OnExit cur) s1
                          | None => s1
                          end in
                match createView route (allocated s2) with
                | None => Some (false, s2)
                | Some newPage =>
                    let s3 := bump s2 in
                    let s4 := set_currentRoute (Some route)
                                (set_stack (m_stack s3 ++ [newPage]) s3) in
                    Some (true, record (OnEnter newPage) s4)
                end
          end
      end
  end.

Definition goBack (s : NavigationController) : bool * NavigationController :=
  if negb (canGoBack s) then (false, s)
  else
    let currentPage := back (m_stack s) in
    let s1 := record (OnExit currentPage) s in
    let s2 := cleanupPage currentPage
                (set_stack (removelast (m_stack s1)) s1) in
    let s3 := match m_stack s2 with
              | [] => s2
              | _ :: _ =>
                  let previousPage := back (m_stack s2) in
                  set_currentRoute None (record (OnEnter previousPage) s2)
              end in
    (true, s3).

(** Two routes and the router states they lead to: the routes
    registered, the home page entered, the settings page on top of it. *)
Definition homeRoute : Route :=
  mkRoute "/" "Home" (fun n => Some (mkPageView "Home" n)) None false.

Definition settingsRoute : Route :=
  mkRoute "/settings" "Settings" (fun n => Some (mkPageView "Settings" n))
          None true.

Definition registered : NavigationController :=
  registerRoute settingsRoute (registerRoute homeRoute new).

Definition atHome : NavigationController :=
  match navigateTo 1 (Some "/") true registered with
  | Some (_, s) => s
  | None => registered
  end.

Definition atSettings : NavigationController :=
  match navigateTo 1 (Some "/settings") false atHome with
  | Some (_, s) => s
  | None => atHome
  end.

Definition set_rootRoute (r : option Route) (s : NavigationController) :=
  mkNavigationController (m_stack s) (m_routes s) (m_currentRoute s) r
                         (allocated s) (history s).

(** [registerDefaultRoutes] registers nothing so far. *)
Definition registerDefaultRoutes (s : NavigationController) : NavigationController := s.

(** [init]; [fuel] bounds the redirects of its [navigateTo]. *)
Definition init (fuel : nat) (s : NavigationController)
  : option (bool * NavigationController) :=
  let s1 := registerDefaultRoutes s in
  let s2 := set_rootRoute (findRoute s1 "/") s1 in
  match m_rootRoute s2 with
  | None => Some (false, s2)
  | Some _ => navigateTo fuel (Some "/") true s2
  end.

(** [reset]: every page is cleaned up front to back, the stack cleared,
    and the root entered again if there is one; the result of that
    [navigateTo] is dropped. *)
Definition reset (fuel : nat) (s : NavigationController)
  : option NavigationController :=
  let s1 := fold_left (fun acc page => cleanupPage page acc) (m_stack s) s in
  let s2 := set_currentRoute None (set_stack [] s1) in
  match m_rootRoute s2 with
  | None => Some s2
  | Some _ =>
      match navigateTo fuel (Some "/") true s2 with
      | Some (_, s3) => Some s3
      | None => None
      end
  end.

(** [LoginGuard]: allows everything for now, redirects to the login
    page. *)
Definition LoginGuard : RouteGuard :=
  mkRouteGuard (fun _ => true) "/login".

(** The state a successful [navigateTo] leaves. *)
Definition pushed (clearStack : bool) (route : Route) (page : PageView)
           (s : NavigationController) : NavigationController :=
  let kept := if clearStack then [] else m_stack s in
  let log := if clearStack then (map Deleted (m_stack s) ++ history s)%list
             else match m_stack s with
                  | [] => history s
                  | _ :: _ => OnExit (back (m_stack s)) :: history s
                  end in
  mkNavigationController (kept ++ [page])%list (m_routes s) (Some route)
                         (m_rootRoute s) (S (allocated s))
                         (OnEnter page :: log).

(** The paths of the route table are pairwise different. *)
Definition uniquePaths (s : NavigationController) : Prop :=
  NoDup (map path (m_routes s)).

(** The route [p] is registered with a guard that refuses it and
    redirects to [q]. *)
Definition refusedTo (s : NavigationController) (p q : string) : Prop :=
  exists (route : Route) (g : RouteGuard),
    findRoute s p = Some route /\ guard route = Some g /\
    canActivate g (path route) = false /\ getRedirectPath g = q.

(** The route [p] is registered, may be activated, and its factory makes
    the page [page] at the current allocation count. *)
Definition opensWith (s : NavigationController) (p : string)
           (route : Route) (page : PageView) : Prop :=
  findRoute s p = Some route /\ canActivateRoute route = true /\
  createView route (allocated s) = Some page.

End Nav.

(** * Properties *)

(** ** Facts about the machine-integer helpers *)

Module CIntFacts.
Import CInt.
Local Open Scope Z_scope.

Lemma wrap16_small (z : Z) : int16_range z -> wrap16 z = z.
Proof.
  unfold int16_range, wrap16; intros Hz.
  rewrite Z.mod_small by lia. lia.
Qed.

Lemma wrap16_range (z : Z) : int16_range (wrap16 z).
Proof.
  unfold int16_range, wrap16.
  pose proof (Z.mod_pos_bound (z + 32768) 65536 ltac:(lia)). lia.
Qed.

Lemma wrapU32_small (z : Z) : 0 <= z < 4294967296 -> wrapU32 z = z.
Proof. unfold wrapU32; intros Hz. now rewrite Z.mod_small. Qed.

Lemma abs_Zabs (z : Z) : abs z = Z.abs z.
Proof. unfold abs. destruct (Z.gtb_spec z 0); lia. Qed.

Lemma Rltb_true (a b : R) : Rltb a b = true <-> (a < b)%R.
Proof. unfold Rltb. destruct (Rlt_dec a b); intuition congruence. Qed.

Lemma Rltb_false (a b : R) : Rltb a b = false <-> (b <= a)%R.
Proof.
  unfold Rltb. destruct (Rlt_dec a b); split; intros; try congruence; lra.
Qed.

Lemma Rleb_true (a b : R) : Rleb a b = true <-> (a <= b)%R.
Proof. unfold Rleb. destruct (Rle_dec a b); intuition congruence. Qed.

Lemma Reqb_true (a b : R) : Reqb a b = true <-> a = b.
Proof. unfold Reqb. destruct (Req_dec_T a b); intuition congruence. Qed.

Lemma Reqb_false (a b : R) : Reqb a b = false <-> a <> b.
Proof. unfold Reqb. destruct (Req_dec_T a b); intuition congruence. Qed.

(** Truncation of a non-negative real is its integer part. *)
Lemma trunc_nonneg (r : R) (z : Z) :
  (IZR z <= r < IZR z + 1)%R -> 0 <= z -> trunc r = z.
Proof.
  intros [Hlo Hhi] Hz. unfold trunc.
  assert (0 <= r)%R by (apply Rle_trans with (IZR z); [apply IZR_le; lia | lra]).
  destruct (Rle_dec 0 r) as [_ | Hn]; [| contradiction].
  symmetry. apply Int_part_spec. lra.
Qed.

Lemma trunc_IZR (z : Z) : 0 <= z -> trunc (IZR z) = z.
Proof. intros Hz. apply trunc_nonneg; [lra | assumption]. Qed.

Lemma trunc_0 : trunc 0 = 0.
Proof. apply (trunc_IZR 0). lia. Qed.


End CIntFacts.

(** ** The gesture recognizer *)

Module GestureProofs.
Import CInt CIntFacts Touch.
Local Open Scope Z_scope.

(** One held frame past the long-press duration, without movement and
    with no drag under way, reports [LONG_PRESS] and leaves the session
    as it was: nothing records that the event has been reported. *)
Lemma long_press_frame (s : TouchController) (f : Frame) :
  pressedNoDrag s -> longHeldFrame s f ->
  let s' := update f s in
  m_lastEvent s' = LONG_PRESS /\
  pressedNoDrag s' /\
  m_touchStart s' = m_touchStart s /\
  m_touchStartTime s' = m_touchStartTime s.
Proof.
  intros [Hp Hd] (Ht & Hx & Hy & Hdur). unfold update.
  rewrite Ht, Hp. cbn [andb negb].
  unfold detectGestures. cbn [m_isDragging m_currentTouch m_touchStart
    m_touchStartTime x y].
  rewrite Hd. cbn [negb andb].
  replace (_ >? LONG_PRESS_DURATION) with true by (symmetry; apply Z.gtb_lt; lia).
  replace (abs (wrap16 (raw_x f - x (m_touchStart s))) <? DRAG_THRESHOLD)
    with true by (symmetry; apply Z.ltb_lt; lia).
  replace (abs (wrap16 (raw_y f - y (m_touchStart s))) <? DRAG_THRESHOLD)
    with true by (symmetry; apply Z.ltb_lt; lia).
  cbn. unfold pressedNoDrag. cbn. auto.
Qed.

(** Hence every frame of a run of such frames reports [LONG_PRESS]: a
    session held still for n frames past the duration reports it n
    times. *)
Lemma long_press_every_frame (frames : list Frame) :
  forall s : TouchController,
    pressedNoDrag s ->
    Forall (longHeldFrame s) frames ->
    run s frames = repeat LONG_PRESS (List.length frames).
Proof.
  induction frames as [| f frames IH]; intros s Hs Hall; [reflexivity |].
  inversion Hall as [| ? ? Hf Hrest]; subst.
  destruct (long_press_frame s f Hs Hf) as (He & Hs' & Hst & Htm).
  cbn [run List.length repeat]. cbv zeta. rewrite He. f_equal.
  apply IH; [assumption |].
  eapply Forall_impl; [| exact Hrest].
  intros g. unfold longHeldFrame. now rewrite Hst, Htm.
Qed.

(** C1, at the failing input.  The session [heldStill] is well formed,
    stays within the drag threshold of its press point and lasts at least
    800 ms; the recognizer reports [LONG_PRESS] on both of its held
    frames, twice in one session and not once. *)
Theorem long_press_reported_twice :
  wellFormedSession heldStill = true /\
  stationary heldStill = true /\
  heldAtLeast LONG_PRESS_DURATION heldStill = true /\
  run init (sessionFrames heldStill) = [NONE; LONG_PRESS; LONG_PRESS; NONE] /\
  countEvent LONG_PRESS (run init (sessionFrames heldStill)) = 2%nat.
Proof. repeat split; vm_compute; reflexivity. Qed.

End GestureProofs.

(** ** The circular slider *)

Module SliderProofs.
Import CInt CIntFacts Slider.
Local Open Scope Z_scope.

Ltac fields :=
  cbn [m_centerX m_centerY m_radius m_innerRadius m_value m_minValue
       m_maxValue m_targetValue m_startAngle m_endAngle m_currentAngle
       m_enabled m_isDragging m_hasChanged m_onValueChanged notified] in *.

Ltac setters :=
  unfold set_value, set_range, set_targetValue, set_currentAngle,
         set_enabled, set_isDragging, set_hasChanged, add_notified in *.

Ltac zmod := Z.to_euclidean_division_equations; lia.

(** *** [normalizeAngle] computes the residue modulo 360 *)

Lemma addWhileNegative_spec (fuel : nat) :
  forall a : Z,
    int16_range a -> - (360 * Z.of_nat fuel) <= a ->
    let r := addWhileNegative fuel a in
    0 <= r <= 32767 /\ r mod 360 = a mod 360 /\ (a < 0 -> r < 360).
Proof.
  induction fuel as [| fuel IH]; intros a Ha Hlow; cbn [addWhileNegative].
  - unfold int16_range in Ha. cbv zeta. repeat split; lia.
  - destruct (Z.ltb_spec a 0) as [Hneg | Hpos].
    + unfold int16_range in Ha.
      rewrite wrap16_small by (unfold int16_range; lia).
      destruct (IH (a + 360)) as (Hr & Hm & Hlt);
        [unfold int16_range; lia | lia |].
      cbv zeta in *. split; [exact Hr |]. split.
      * rewrite Hm. replace (a + 360) with (a + 1 * 360) by lia.
        apply Z_mod_plus_full.
      * intros _. destruct (Z.ltb_spec (a + 360) 0) as [Hn | Hp];
          [auto |].
        assert (Hid : addWhileNegative fuel (a + 360) = a + 360)
          by (destruct fuel; cbn [addWhileNegative]; [reflexivity |];
              destruct (Z.ltb_spec (a + 360) 0); [lia | reflexivity]).
        rewrite Hid. lia.
    + unfold int16_range in Ha. cbv zeta. repeat split; lia.
Qed.

Lemma subWhileAtLeast360_spec (fuel : nat) :
  forall a : Z,
    0 <= a <= 32767 -> a < 360 * Z.of_nat fuel ->
    subWhileAtLeast360 fuel a = a mod 360.
Proof.
  induction fuel as [| fuel IH]; intros a Ha Hup; cbn [subWhileAtLeast360].
  - lia.
  - destruct (Z.geb_spec a 360) as [Hge | Hlt].
    + rewrite wrap16_small by (unfold int16_range; lia).
      rewrite IH by lia.
      replace a with (a - 360 + 1 * 360) at 2 by lia.
      now rewrite Z_mod_plus_full.
    + symmetry. apply Z.mod_small. lia.
Qed.

Lemma normalizeAngle_mod (a : Z) :
  int16_range a -> normalizeAngle a = a mod 360.
Proof.
  intros Ha. unfold normalizeAngle.
  destruct (addWhileNegative_spec 92 a Ha) as (Hr & Hm & _);
    [unfold int16_range in Ha; lia |].
  cbv zeta in *. rewrite subWhileAtLeast360_spec by lia. exact Hm.
Qed.

Lemma normalizeAngle_range (a : Z) :
  int16_range a -> 0 <= normalizeAngle a < 360.
Proof.
  intros Ha. rewrite normalizeAngle_mod by assumption.
  apply Z.mod_pos_bound. lia.
Qed.

(** *** The relative angle on the arc that starts at 135 degrees *)

Lemma relativeTo_135 (a : Z) :
  0 <= a < 360 -> relativeTo 135 a = (a - 135) mod 360.
Proof.
  intros Ha. unfold relativeTo.
  destruct (Z.geb_spec a 135).
  - rewrite wrap16_small by (unfold int16_range; lia).
    symmetry. apply Z.mod_small. lia.
  - rewrite wrap16_small by (unfold int16_range; lia). zmod.
Qed.

Lemma touchAngleDeg_range (s : CircularSlider) (px py : Z) :
  0 <= touchAngleDeg s px py < 360.
Proof. unfold touchAngleDeg. apply normalizeAngle_range, wrap16_range. Qed.

Lemma touchRelativeAngle_range (s : CircularSlider) (px py : Z) :
  m_startAngle s = 135 -> 0 <= touchRelativeAngle s px py < 360.
Proof.
  intros Hs. unfold touchRelativeAngle. rewrite Hs.
  rewrite relativeTo_135 by apply touchAngleDeg_range.
  apply Z.mod_pos_bound. lia.
Qed.

Lemma clampRelativeAngle_range (r : Z) :
  0 <= r -> 0 <= clampRelativeAngle r <= 270.
Proof.
  intros Hr. unfold clampRelativeAngle.
  destruct (Z.gtb_spec r 270); [destruct (Z.gtb_spec r 315) |]; lia.
Qed.

(** The normalized angle [rel] degrees past 135, for a [rel] within the
    sweep. *)
Lemma normalized_in_sweep (rel : Z) :
  0 <= rel <= 270 ->
  let a := normalizeAngle (wrap16 (135 + rel)) in
  0 <= a < 360 /\ (a - 135) mod 360 = rel.
Proof.
  intros Hrel. cbv zeta.
  rewrite wrap16_small by (unfold int16_range; lia).
  rewrite normalizeAngle_mod by (unfold int16_range; lia).
  split; zmod.
Qed.

(** Storing the angle that lies [rel] degrees past the start, for a
    [rel] within the sweep, leaves the slider's angle on the arc, [rel]
    degrees in. *)
Lemma stored_angle_in_sweep (s : CircularSlider) (rel : Z) :
  m_startAngle s = 135 -> 0 <= rel <= 270 ->
  let s' := set_currentAngle (normalizeAngle (wrap16 (m_startAngle s + rel))) s in
  angleInSweep s' /\ (m_currentAngle s' - m_startAngle s') mod 360 = rel.
Proof.
  intros Hs Hrel. unfold angleInSweep. setters. fields. rewrite Hs.
  rewrite wrap16_small by (unfold int16_range; lia).
  rewrite normalizeAngle_mod by (unfold int16_range; lia).
  repeat split; zmod.
Qed.

(** *** A touch in the dead zone *)

(** The point 90 pixels to the right of the centre of a slider of outer
    radius 100 and inner radius 80 lies in the ring. *)
Lemma right_of_centre_contained :
  contains (new 180 180 100 80) 270 180 = true.
Proof.
  unfold contains, distance, new. fields.
  change (wrap16 180) with 180. change (wrap16 (270 - 180)) with 90.
  change (wrap16 (180 - 180)) with 0. change (90 * 90 + 0 * 0) with 8100.
  change (wrap16 80) with 80. change (wrap16 100) with 100.
  assert (Hd : sqrt 8100 = 90%R)
    by (apply sqrt_lem_1; lra).
  rewrite Hd. apply andb_true_iff. split; apply Rleb_true; lra.
Qed.

(** Its angle is 90 degrees in the "0 = up" frame, 315 degrees past the
    start of the arc. *)
Lemma right_of_centre_relative :
  touchRelativeAngle (new 180 180 100 80) 270 180 = 315.
Proof.
  unfold touchRelativeAngle, touchAngleDeg, new. fields.
  change (wrap16 180) with 180. change (wrap16 (270 - 180)) with 90.
  change (wrap16 (180 - 180)) with 0.
  unfold atan2. change (0 <? 90) with true. cbv iota.
  replace (0 / 90)%R with 0%R by lra. rewrite atan_0.
  unfold castInt16. rewrite Rmult_0_l, trunc_0.
  reflexivity.
Qed.

(** C2, counterexample.  [contains] accepts the point right of the
    centre, and its relative angle is 315 > 270: the touch is in the dead
    zone and takes the snap branch. *)
Lemma dead_zone_touch_accepted :
  ~ snapUnreachableAt (new 180 180 100 80) 270 180.
Proof.
  unfold snapUnreachableAt. intros H.
  specialize (H right_of_centre_contained).
  rewrite right_of_centre_relative in H. lia.
Qed.

(** The clamp keeps a relative angle of at most 270 degrees and replaces
    a larger one by an end of the arc, 0 or 270. *)
Lemma clampRelativeAngle_cases (r : Z) :
  (r <= 270 -> clampRelativeAngle r = r) /\
  (270 < r -> clampRelativeAngle r = 0 \/ clampRelativeAngle r = 270).
Proof.
  unfold clampRelativeAngle.
  destruct (Z.gtb_spec r 270); [destruct (Z.gtb_spec r 315) |];
    split; intros; auto; lia.
Qed.

(** C2, as amended.  [contains] tests the distance from the centre only,
    so it accepts touches of the dead zone as well.  For every touch
    point that [contains] accepts, [calculateAngleFromTouch] stores an
    angle on the 270 degree arc: the relative angle of the touch itself
    where that is at most 270, and an end of the arc (0 or 270 degrees
    past the start) where it is larger. *)
Theorem accepted_touch_angle_clamped (s : CircularSlider) (px py : Z) :
  m_startAngle s = 135 ->
  contains s px py = true ->
  let rel := touchRelativeAngle s px py in
  let s' := calculateAngleFromTouch px py s in
  let stored := (m_currentAngle s' - m_startAngle s') mod 360 in
  angleInSweep s' /\
  (rel <= 270 -> stored = rel) /\
  (270 < rel -> stored = 0 \/ stored = 270).
Proof.
  intros Hs _. cbv zeta.
  pose proof (touchRelativeAngle_range s px py Hs) as Hr.
  destruct (stored_angle_in_sweep s
              (clampRelativeAngle (touchRelativeAngle s px py)) Hs
              (clampRelativeAngle_range _ (proj1 Hr)))
    as [Hsweep Hstored].
  unfold calculateAngleFromTouch. cbv zeta.
  split; [exact Hsweep |]. rewrite Hstored.
  apply clampRelativeAngle_cases.
Qed.

Lemma accepted_touch_angle_clamped_witness :
  let s := new 180 180 100 80 in
  let rel := touchRelativeAngle s 270 180 in
  let s' := calculateAngleFromTouch 270 180 s in
  let stored := (m_currentAngle s' - m_startAngle s') mod 360 in
  angleInSweep s' /\
  (rel <= 270 -> stored = rel) /\
  (270 < rel -> stored = 0 \/ stored = 270).
Proof.
  exact (accepted_touch_angle_clamped (new 180 180 100 80) 270 180
           eq_refl right_of_centre_contained).
Defined.

(** *** The bounds are kept by every operation *)




(** What [setRange] leaves in the members that the bounds read. *)
Lemma setRange_members (lo hi : R) (s : CircularSlider) :
  let s' := setRange lo hi s in
  m_minValue s' = lo /\ m_maxValue s' = hi /\
  m_startAngle s' = m_startAngle s /\ m_currentAngle s' = m_currentAngle s /\
  m_value s' =
    (lo + IZR (relativeTo (m_startAngle s) (m_currentAngle s)) / 270
          * (hi - lo))%R.
Proof.
  cbv zeta. unfold setRange.
  set (s1 := set_range lo hi s).
  assert (H1 : m_minValue s1 = lo /\ m_maxValue s1 = hi /\
               m_startAngle s1 = m_startAngle s /\
               m_currentAngle s1 = m_currentAngle s)
    by (repeat split; reflexivity).
  clearbody s1.
  set (s2 := if Rltb (m_value s1) (m_minValue s1)
             then set_value (m_minValue s1) s1 else s1).
  assert (H2 : m_minValue s2 = lo /\ m_maxValue s2 = hi /\
               m_startAngle s2 = m_startAngle s /\
               m_currentAngle s2 = m_currentAngle s)
    by (unfold s2; destruct (Rltb _ _); exact H1).
  clearbody s2. clear H1 s1.
  set (s3 := if Rltb (m_maxValue s2) (m_value s2)
             then set_value (m_maxValue s2) s2 else s2).
  assert (H3 : m_minValue s3 = lo /\ m_maxValue s3 = hi /\
               m_startAngle s3 = m_startAngle s /\
               m_currentAngle s3 = m_currentAngle s)
    by (unfold s3; destruct (Rltb _ _); exact H2).
  clearbody s3. clear H2 s2.
  destruct H3 as (Hlo & Hhi & Hst & Hcur).
  unfold calculateValueFromAngle. setters. fields.
  rewrite Hlo, Hhi, Hst, Hcur. repeat split; reflexivity.
Qed.












End SliderProofs.

(** ** The hexagonal grid *)

Module HexProofs.
Import CInt CIntFacts Config Hex.
Local Open Scope Z_scope.

(** *** Positions *)

Lemma getHexPosition_layout (g g' : HexagonalGrid) (idx : Z) :
  sameLayout g g' -> getHexPosition g' idx = getHexPosition g idx.
Proof.
  intros (Hx & Hy & Hd). unfold getHexPosition. now rewrite Hx, Hy, Hd.
Qed.

(** Index 1 is the first slot of ring 1: 30 degrees from the x axis at
    one hex distance, so for a hex distance of 90 it lies 77 pixels right
    of the centre and 45 pixels below it. *)
Lemma getHexPosition_1 (g : HexagonalGrid) :
  m_hexDistance g = 90%R ->
  getHexPosition g 1 =
    (wrap16 (m_centerX g + 77), wrap16 (m_centerY g + 45)).
Proof.
  intros Hd. unfold getHexPosition.
  change (1 =? 0) with false. cbv iota.
  change (ringSearch RING_ITEMS 0 1 0 0) with (1, 1). cbv iota beta.
  change (1 - 1) with 0.
  change (nth (Z.to_nat 1) RING_ITEMS 0) with 6.
  rewrite Hd.
  replace (2 * PI * 0 / 6 + PI / 6)%R with (PI / 6)%R by lra.
  rewrite cos_PI6, sin_PI6.
  assert (Hs : (sqrt 3 * sqrt 3 = 3)%R) by (apply sqrt_sqrt; lra).
  assert (Hp : (0 < sqrt 3)%R) by (apply sqrt_lt_R0; lra).
  assert (Hc : trunc (1 * 90 * (sqrt 3 / 2)) = 77)
    by (apply trunc_nonneg; [split; nra | lia]).
  assert (Hy : trunc (1 * 90 * (1 / 2)) = 45)
    by (apply trunc_nonneg; [split; lra | lia]).
  unfold castInt16. rewrite Hc, Hy. reflexivity.
Qed.

Lemma positionsFrom_nth (g : HexagonalGrid) (items : list GridItem) :
  forall (i : Z) (k : nat) (it : GridItem),
    nth_error (positionsFrom g i items) k = Some it ->
    (x it, y it) = getHexPosition g (i + Z.of_nat k).
Proof.
  induction items as [| first rest IH]; intros i k it Hk.
  - destruct k; discriminate.
  - cbn [positionsFrom] in Hk.
    destruct (getHexPosition g i) as [px py] eqn:Hpos.
    destruct k as [| k]; cbn [nth_error] in Hk.
    + injection Hk as <-. cbn [x y item_set_position].
      now rewrite Z.add_0_r.
    + apply IH in Hk. rewrite Hk. f_equal. lia.
Qed.

Lemma positionsFrom_layout (g g' : HexagonalGrid) (items : list GridItem) :
  sameLayout g g' ->
  forall i : Z, positionsFrom g' i items = positionsFrom g i items.
Proof.
  intros Hl. induction items as [| first rest IH]; intros i.
  - reflexivity.
  - cbn [positionsFrom]. rewrite (getHexPosition_layout g g' i Hl).
    destruct (getHexPosition g i). now rewrite IH.
Qed.

(** [calculateItemPositions] changes positions only. *)
Lemma positionsFrom_item (g : HexagonalGrid) (items : list GridItem) :
  forall (i : Z) (k : nat),
    nth_error (positionsFrom g i items) k =
    option_map (fun it => let '(px, py) := getHexPosition g (i + Z.of_nat k) in
                          item_set_position px py it)
               (nth_error items k).
Proof.
  induction items as [| first rest IH]; intros i k.
  - destruct k; reflexivity.
  - cbn [positionsFrom].
    destruct k as [| k].
    + rewrite Z.add_0_r. destruct (getHexPosition g i). reflexivity.
    + destruct (getHexPosition g i). cbn [nth_error]. rewrite IH.
      now replace (i + 1 + Z.of_nat k) with (i + Z.of_nat (S k)) by lia.
Qed.

Lemma updateScrollBounds_items (g : HexagonalGrid) :
  m_items (updateScrollBounds g) = m_items g /\
  sameLayout g (updateScrollBounds g) /\
  m_itemRadius (updateScrollBounds g) = m_itemRadius g /\
  m_scrollOffsetX (updateScrollBounds g) = m_scrollOffsetX g /\
  m_scrollOffsetY (updateScrollBounds g) = m_scrollOffsetY g.
Proof.
  unfold updateScrollBounds, sameLayout.
  destruct (m_items g) as [| first rest] eqn:Hitems.
  - cbn. auto 10.
  - destruct (fold_left extend (first :: rest) _) as [[[minX maxX] minY] maxY].
    cbn. auto 10.
Qed.

(** The item list that [addItem] leaves: the old items and the new one,
    marked invisible and numbered, each at its computed position. *)
Lemma addItem_items (item : GridItem) (g : HexagonalGrid) :
  m_items (addItem item g) =
    positionsFrom g 0
      (m_items g ++
       [item_set_visible false
          (item_set_index (Z.of_nat (List.length (m_items g))) item)]).
Proof.
  unfold addItem.
  destruct (updateScrollBounds_items
              (calculateItemPositions
                 (set_items
                    (m_items g ++
                     [item_set_visible false
                        (item_set_index (Z.of_nat (List.length (m_items g)))
                                        item)]) g))) as [-> _].
  unfold calculateItemPositions. cbn [m_items set_items].
  apply positionsFrom_layout. unfold sameLayout. cbn. auto.
Qed.

Lemma addItem_layout (item : GridItem) (g : HexagonalGrid) :
  sameLayout g (addItem item g) /\
  m_itemRadius (addItem item g) = m_itemRadius g /\
  m_scrollOffsetX (addItem item g) = m_scrollOffsetX g /\
  m_scrollOffsetY (addItem item g) = m_scrollOffsetY g.
Proof.
  unfold addItem.
  destruct (updateScrollBounds_items
              (calculateItemPositions
                 (set_items
                    (m_items g ++
                     [item_set_visible false
                        (item_set_index (Z.of_nat (List.length (m_items g)))
                                        item)]) g)))
    as (_ & (Hx & Hy & Hd) & Hr & Hsx & Hsy).
  unfold sameLayout. rewrite Hx, Hy, Hd, Hr, Hsx, Hsy. cbn. auto 10.
Qed.

Lemma positionsFrom_length (g : HexagonalGrid) (items : list GridItem) :
  forall i : Z, List.length (positionsFrom g i items) = List.length items.
Proof.
  induction items as [| first rest IH]; intros i; cbn [positionsFrom].
  - reflexivity.
  - destruct (getHexPosition g i). cbn [List.length]. now rewrite IH.
Qed.

Lemma addItem_length (item : GridItem) (g : HexagonalGrid) :
  List.length (m_items (addItem item g)) = S (List.length (m_items g)).
Proof.
  rewrite addItem_items, positionsFrom_length, length_app. cbn. lia.
Qed.

Lemma addItem_positioned (item : GridItem) (g : HexagonalGrid) :
  positioned (addItem item g).
Proof.
  intros k it Hk. rewrite addItem_items in Hk.
  apply positionsFrom_nth in Hk. rewrite Hk.
  symmetry. apply getHexPosition_layout, addItem_layout.
Qed.

(** *** Grids built by [addItem] *)

Lemma addItems_invariant (items : list GridItem) :
  forall g : HexagonalGrid,
    let g' := fold_left (fun g it => addItem it g) items g in
    sameLayout g g' /\
    List.length (m_items g') = (List.length (m_items g) + List.length items)%nat /\
    (positioned g -> positioned g').
Proof.
  induction items as [| item items IH]; intros g; cbn [fold_left].
  - cbv zeta. unfold sameLayout. cbn [List.length]. repeat split; auto.
  - destruct (IH (addItem item g)) as ((Hx & Hy & Hd) & Hlen & Hpos).
    destruct (addItem_layout item g) as ((Hx' & Hy' & Hd') & _).
    cbv zeta in *. unfold sameLayout. rewrite Hx, Hy, Hd, Hx', Hy', Hd'.
    rewrite Hlen, addItem_length. cbn [List.length].
    repeat split; try lia.
    intros _. apply Hpos, addItem_positioned.
Qed.

(** In a grid built with [itemRadius = 40] and [spacing = 10] that has at
    least two items, the item of index 1 sits 77 pixels right of the
    centre and 45 below it. *)
Lemma build_item_1 (centerX centerY : Z) (items : list GridItem) :
  (2 <= List.length items)%nat ->
  exists it : GridItem,
    nth_error (m_items (build centerX centerY 40 10 items)) 1 = Some it /\
    x it = wrap16 (wrap16 centerX + 77) /\
    y it = wrap16 (wrap16 centerY + 45).
Proof.
  intros Hlen. unfold build.
  destruct (addItems_invariant items (new centerX centerY 40 10))
    as ((Hx & Hy & Hd) & Hn & Hpos).
  cbv zeta in *.
  set (g := fold_left _ items _) in *.
  assert (Hp : positioned g)
    by (apply Hpos; intros k it Hk; destruct k; discriminate).
  destruct (nth_error (m_items g) 1) as [it |] eqn:Hit.
  - exists it. split; [reflexivity |].
    specialize (Hp 1%nat it Hit). change (Z.of_nat 1) with 1 in Hp.
    rewrite getHexPosition_1 in Hp
      by (rewrite Hd; unfold new; cbn [m_hexDistance];
          change (wrap16 40 * 2 + wrap16 10) with 90; reflexivity).
    rewrite Hx, Hy in Hp. unfold new in Hp. cbn [m_centerX m_centerY] in Hp.
    injection Hp as -> ->. split; reflexivity.
  - apply nth_error_None in Hit. cbn [new m_items List.length] in Hn. lia.
Qed.

(** C3, counterexample.  In the grid of 7 items around (180, 180) the
    item of index 1 is at (257, 225), which is not approximately the
    "0 = up" position (180 + 90 sin 30, 180 - 90 cos 30), about
    (225, 102.1). *)
Lemma item_1_not_in_up_frame :
  exists it : GridItem,
    nth_error (m_items sevenItems) 1 = Some it /\
    (x it, y it) = (257, 225) /\
    ~ approximately (x it, y it) (upFramePosition 180 180 90).
Proof.
  destruct (build_item_1 180 180 (repeat plainItem 7)) as (it & Hit & Hx & Hy);
    [cbn; lia |].
  exists it. split; [exact Hit |].
  rewrite Hx, Hy. change (wrap16 (wrap16 180 + 77)) with 257.
  change (wrap16 (wrap16 180 + 45)) with 225.
  split; [reflexivity |].
  unfold approximately, upFramePosition. cbn [fst snd].
  rewrite sin_PI6. intros [Hx1 _].
  replace (257 - (180 + 90 * (1 / 2)))%R with 32%R in Hx1 by lra.
  rewrite Rabs_pos_eq in Hx1; lra.
Qed.

(** C3, as amended.  In a grid of 7 items with [itemRadius = 40] and
    [spacing = 10] (hex distance 90) the item of index 1 is at 30 degrees
    and radius 90 measured from the x axis toward the y axis of the
    screen: [(centerX + trunc (90 cos 30), centerY + trunc (90 sin 30))],
    which is [(centerX + 77, centerY + 45)]. *)
Theorem item_1_position (centerX centerY : Z) (items : list GridItem) :
  List.length items = 7%nat ->
  exists it : GridItem,
    nth_error (m_items (build centerX centerY 40 10 items)) 1 = Some it /\
    x it = wrap16 (wrap16 centerX + trunc (90 * cos (PI / 6))) /\
    y it = wrap16 (wrap16 centerY + trunc (90 * sin (PI / 6))) /\
    x it = wrap16 (wrap16 centerX + 77) /\
    y it = wrap16 (wrap16 centerY + 45).
Proof.
  intros Hlen.
  destruct (build_item_1 centerX centerY items) as (it & Hit & Hx & Hy);
    [lia |].
  exists it. split; [exact Hit |].
  assert (Hs : (sqrt 3 * sqrt 3 = 3)%R) by (apply sqrt_sqrt; lra).
  assert (Hp : (0 < sqrt 3)%R) by (apply sqrt_lt_R0; lra).
  assert (Hc : trunc (90 * cos (PI / 6)) = 77)
    by (rewrite cos_PI6; apply trunc_nonneg; [split; nra | lia]).
  assert (Hsn : trunc (90 * sin (PI / 6)) = 45)
    by (rewrite sin_PI6; apply trunc_nonneg; [split; lra | lia]).
  rewrite Hc, Hsn. auto.
Qed.

Lemma item_1_position_witness :
  exists it : GridItem,
    nth_error (m_items (build 180 180 40 10 (repeat plainItem 7))) 1 = Some it /\
    x it = wrap16 (wrap16 180 + trunc (90 * cos (PI / 6))) /\
    y it = wrap16 (wrap16 180 + trunc (90 * sin (PI / 6))) /\
    x it = wrap16 (wrap16 180 + 77) /\
    y it = wrap16 (wrap16 180 + 45).
Proof.
  apply (item_1_position 180 180 (repeat plainItem 7)). reflexivity.
Defined.

(** *** Beyond the ring table *)

(** C10.  The ring table holds 1 + 6 + 12 + 18 + 24 + 30 = 91 slots.  For
    an index of 91 or more the ring search runs through the table, leaves
    [ring = 0] with 91 items before it, and [getHexPosition] returns the
    centre, the position of index 0. *)
Theorem beyond_ring_table_is_centre (g : HexagonalGrid) (idx : Z) :
  int16_range (m_centerX g) -> int16_range (m_centerY g) ->
  91 <= idx ->
  fold_right Z.add 0 RING_ITEMS = 91 /\
  ringSearch RING_ITEMS 0 idx 0 0 = (0, 91) /\
  getHexPosition g idx = (m_centerX g, m_centerY g) /\
  getHexPosition g idx = getHexPosition g 0.
Proof.
  intros Hx Hy Hidx.
  assert (Hring : ringSearch RING_ITEMS 0 idx 0 0 = (0, 91)).
  { unfold RING_ITEMS. cbn [ringSearch].
    repeat match goal with
           | |- context [idx <? ?n] =>
               let n' := eval cbv in n in
               replace (idx <? n) with false
                 by (symmetry; apply Z.ltb_ge; change n with n'; lia)
           end.
    reflexivity. }
  assert (Hpos : getHexPosition g idx = (m_centerX g, m_centerY g)).
  { unfold getHexPosition.
    replace (idx =? 0) with false by (symmetry; apply Z.eqb_neq; lia).
    rewrite Hring. cbv iota beta.
    rewrite !Rmult_0_l. unfold castInt16. rewrite trunc_0.
    change (wrap16 0) with 0. rewrite !Z.add_0_r.
    now rewrite !wrap16_small by assumption. }
  repeat split; assumption.
Qed.

Lemma beyond_ring_table_is_centre_witness :
  getHexPosition (new 180 180 40 10) 91 = (180, 180).
Proof.
  apply (beyond_ring_table_is_centre (new 180 180 40 10) 91);
    unfold int16_range; cbn; lia.
Defined.

(** *** Hit-testing *)

(** What the scan finds is a visible item under the touch. *)
Lemma scanFrom_Some (g : HexagonalGrid) (px py : Z) (items : list GridItem) :
  forall i j : nat,
    scanFrom g px py i items = Some j ->
    exists it : GridItem,
      (i <= j)%nat /\ nth_error items (j - i) = Some it /\
      visible it = true /\ hits g px py it = true.
Proof.
  induction items as [| first rest IH]; intros i j Hscan;
    cbn [scanFrom] in Hscan; [discriminate |].
  destruct (visible first) eqn:Hvis; cbn [negb] in Hscan.
  - destruct (hits g px py first) eqn:Hhit.
    + injection Hscan as <-. exists first.
      rewrite Nat.sub_diag. cbn [nth_error]. auto.
    + destruct (IH _ _ Hscan) as (it & Hle & Hnth & Hv & Hh).
      exists it. replace (j - i)%nat with (S (j - S i)) by lia.
      cbn [nth_error]. repeat split; auto; lia.
  - destruct (IH _ _ Hscan) as (it & Hle & Hnth & Hv & Hh).
    exists it. replace (j - i)%nat with (S (j - S i)) by lia.
    cbn [nth_error]. repeat split; auto; lia.
Qed.

(** The scan finds nothing where no visible item is under the touch. *)
Lemma scanFrom_None (g : HexagonalGrid) (px py : Z) (items : list GridItem) :
  (forall (k : nat) (it : GridItem),
      nth_error items k = Some it ->
      visible it && hits g px py it = false) ->
  forall i : nat, scanFrom g px py i items = None.
Proof.
  induction items as [| first rest IH]; intros Hnone i; cbn [scanFrom];
    [reflexivity |].
  pose proof (Hnone 0%nat first eq_refl) as Hfirst.
  assert (Hrest : forall k it, nth_error rest k = Some it ->
                               visible it && hits g px py it = false)
    by (intros k it Hk; exact (Hnone (S k) it Hk)).
  destruct (visible first); cbn [negb andb] in *.
  - rewrite Hfirst. now apply IH.
  - now apply IH.
Qed.

(** The item that [addItem] appends is the last one and is invisible. *)
Lemma addItem_new_item (item : GridItem) (g : HexagonalGrid) :
  exists it : GridItem,
    nth_error (m_items (addItem item g)) (List.length (m_items g)) = Some it /\
    visible it = false /\ onTap it = onTap item /\
    index it = Z.of_nat (List.length (m_items g)).
Proof.
  rewrite addItem_items, positionsFrom_item.
  rewrite nth_error_app2 by lia. rewrite Nat.sub_diag. cbn [nth_error option_map].
  destruct (getHexPosition g _) as [px py].
  eexists. split; [reflexivity |]. cbn. auto.
Qed.

(** C9.  The item that [addItem] appends is created invisible;
    [getItemAtPosition] skips invisible items, so for every grid and
    every touch position (the new item's position among them) it never
    returns the new item before a [render]; [handleTap] returns false
    where no other visible item is under the touch; and the next
    [render] recomputes the item's visibility from [isItemVisible]. *)
Theorem added_item_not_hit_before_render
        (g : HexagonalGrid) (item : GridItem) (px py : Z) :
  let g' := addItem item g in
  let n := List.length (m_items g) in
  (exists it : GridItem,
      nth_error (m_items g') n = Some it /\ visible it = false /\
      exists it' : GridItem,
        nth_error (m_items (render true g')) n = Some it' /\
        visible it' = isItemVisible g' it) /\
  getItemAtPosition g' px py <> Some n /\
  ((forall (k : nat) (other : GridItem),
       k <> n -> nth_error (m_items g') k = Some other ->
       visible other && hits g' px py other = false) ->
   handleTap g' px py = (false, None)).
Proof.
  cbv zeta.
  destruct (addItem_new_item item g) as (it & Hit & Hvis & _).
  split; [| split].
  - exists it. split; [exact Hit |]. split; [exact Hvis |].
    exists (item_set_visible (isItemVisible (addItem item g) it) it).
    unfold render. cbn [negb m_items set_items].
    rewrite nth_error_map, Hit. split; reflexivity.
  - unfold getItemAtPosition. intros Hscan.
    apply scanFrom_Some in Hscan.
    destruct Hscan as (it' & _ & Hnth & Hv & _).
    rewrite Nat.sub_0_r, Hit in Hnth. injection Hnth as <-. congruence.
  - intros Hothers. unfold handleTap, getItemAtPosition.
    rewrite scanFrom_None; [reflexivity |].
    intros k other Hk.
    destruct (Nat.eq_dec k (List.length (m_items g))) as [-> | Hne].
    + rewrite Hit in Hk. injection Hk as <-. now rewrite Hvis.
    + now apply (Hothers k).
Qed.

Lemma added_item_not_hit_before_render_witness :
  let item := mkGridItem None false 0 (Some 7%nat) 0 0 0 true in
  handleTap (addItem item (new 180 180 40 10)) 180 180 = (false, None).
Proof.
  cbv zeta.
  apply (added_item_not_hit_before_render
           (new 180 180 40 10)
           (mkGridItem None false 0 (Some 7%nat) 0 0 0 true) 180 180).
  intros k other Hne Hk.
  assert (Hlt : (k < List.length
                       (m_items (addItem
                                   (mkGridItem None false 0 (Some 7%nat) 0 0 0 true)
                                   (new 180 180 40 10))))%nat)
    by (apply nth_error_Some; congruence).
  rewrite addItem_length in Hlt.
  cbn [new m_items List.length] in Hlt, Hne. lia.
Defined.

End HexProofs.

(** ** The dirty region of the frame buffer *)

Module FrameProofs.
Import CInt CIntFacts Config Frame.
Local Open Scope Z_scope.

Lemma min_Zmin (a b : Z) : min a b = Z.min a b.
Proof. unfold min. destruct (Z.ltb_spec a b); lia. Qed.

Lemma max_Zmax (a b : Z) : max a b = Z.max a b.
Proof. unfold max. destruct (Z.gtb_spec a b); lia. Qed.

(** On a rectangle that lies on the surface the clamping does nothing:
    [markDirty] adopts it when no region is dirty. *)
Lemma markDirty_adopts (r : Rect) (fb : FrameBuffer) :
  m_dirtyTracking fb = true -> dirty (m_dirtyRegion fb) = false ->
  inBounds r ->
  markDirtyRect r fb =
    set_dirtyRegion (mkDirtyRegion (rx r) (ry r) (rw r) (rh r) true) fb.
Proof.
  unfold inBounds, SCREEN_WIDTH, SCREEN_HEIGHT.
  intros Htrack Hclean (Hx & Hy & Hw & Hh & Hr & Hb).
  unfold markDirtyRect, markDirty. rewrite Htrack. cbn [negb].
  destruct (Z.ltb_spec (rx r) 0); [lia |].
  destruct (Z.ltb_spec (ry r) 0); [lia |].
  unfold SCREEN_WIDTH, SCREEN_HEIGHT.
  destruct (Z.gtb_spec (rx r + rw r) 360); [lia |].
  destruct (Z.gtb_spec (ry r + rh r) 360); [lia |].
  destruct (Z.leb_spec (rw r) 0); [lia |].
  destruct (Z.leb_spec (rh r) 0); [lia |].
  cbn [orb]. rewrite Hclean. reflexivity.
Qed.

(** And it merges it with a dirty region that lies on the surface into
    the bounding box of the two. *)
Lemma markDirty_merges (r : Rect) (fb : FrameBuffer) :
  m_dirtyTracking fb = true -> dirty (m_dirtyRegion fb) = true ->
  inBounds (regionRect (m_dirtyRegion fb)) -> inBounds r ->
  let d := m_dirtyRegion (markDirtyRect r fb) in
  dirty d = true /\ regionRect d = boundingUnion (regionRect (m_dirtyRegion fb)) r.
Proof.
  unfold inBounds, SCREEN_WIDTH, SCREEN_HEIGHT. cbn [regionRect rx ry rw rh].
  intros Htrack Hdirty (Hx0 & Hy0 & Hw0 & Hh0 & Hr0 & Hb0)
         (Hx & Hy & Hw & Hh & Hr & Hb).
  unfold markDirtyRect, markDirty. rewrite Htrack. cbn [negb].
  destruct (Z.ltb_spec (rx r) 0); [lia |].
  destruct (Z.ltb_spec (ry r) 0); [lia |].
  unfold SCREEN_WIDTH, SCREEN_HEIGHT.
  destruct (Z.gtb_spec (rx r + rw r) 360); [lia |].
  destruct (Z.gtb_spec (ry r + rh r) 360); [lia |].
  destruct (Z.leb_spec (rw r) 0); [lia |].
  destruct (Z.leb_spec (rh r) 0); [lia |].
  cbn [orb]. rewrite Hdirty. cbn [negb].
  cbv zeta. cbn [m_dirtyRegion set_dirtyRegion dirty regionRect x y width height].
  unfold boundingUnion. cbn [rx ry rw rh regionRect].
  rewrite !min_Zmin, !max_Zmax.
  split; [reflexivity |].
  rewrite (wrap16_small (Z.min _ (rx r))) by (unfold int16_range; lia).
  rewrite (wrap16_small (Z.min _ (ry r))) by (unfold int16_range; lia).
  rewrite (wrap16_small (Z.max _ (rx r + rw r))) by (unfold int16_range; lia).
  rewrite (wrap16_small (Z.max _ (ry r + rh r))) by (unfold int16_range; lia).
  rewrite !wrap16_small by (unfold int16_range; lia).
  reflexivity.
Qed.

(** Twice [markDirty] from a clean state, for any two rectangles on the
    surface. *)
Lemma markDirty_twice (a b : Rect) (fb : FrameBuffer) :
  m_dirtyTracking fb = true -> dirty (m_dirtyRegion fb) = false ->
  inBounds a -> inBounds b ->
  let d := m_dirtyRegion (markDirtyRect b (markDirtyRect a fb)) in
  dirty d = true /\ regionRect d = boundingUnion a b.
Proof.
  intros Htrack Hclean Ha Hb.
  rewrite (markDirty_adopts a fb Htrack Hclean Ha).
  apply (markDirty_merges b); try assumption; try reflexivity.
Qed.

(** C6.  With dirty tracking on and no region dirty, [markDirty] on two
    disjoint rectangles of the surface leaves the one dirty region equal
    to their bounding box; and [markAllDirty], from any state, sets the
    region to the full surface. *)
Theorem dirty_region_union (fb prior : FrameBuffer) (a b : Rect) :
  m_dirtyTracking fb = true -> dirty (m_dirtyRegion fb) = false ->
  inBounds a -> inBounds b -> disjoint a b ->
  (let d := m_dirtyRegion (markDirtyRect b (markDirtyRect a fb)) in
   dirty d = true /\ regionRect d = boundingUnion a b) /\
  m_dirtyRegion (markAllDirty prior) =
    mkDirtyRegion 0 0 SCREEN_WIDTH SCREEN_HEIGHT true.
Proof.
  intros Htrack Hclean Ha Hb _. split.
  - now apply markDirty_twice.
  - reflexivity.
Qed.

Lemma dirty_region_union_witness :
  let fb := clearDirtyFlags new in
  let a := mkRect 10 10 20 20 in
  let b := mkRect 100 50 30 40 in
  (let d := m_dirtyRegion (markDirtyRect b (markDirtyRect a fb)) in
   dirty d = true /\ regionRect d = mkRect 10 10 120 80) /\
  m_dirtyRegion (markAllDirty (setDirtyTracking false fb)) =
    mkDirtyRegion 0 0 360 360 true.
Proof.
  apply (dirty_region_union (clearDirtyFlags new)
           (setDirtyTracking false (clearDirtyFlags new))
           (mkRect 10 10 20 20) (mkRect 100 50 30 40)).
  - reflexivity.
  - reflexivity.
  - unfold inBounds, SCREEN_WIDTH, SCREEN_HEIGHT; cbn; lia.
  - unfold inBounds, SCREEN_WIDTH, SCREEN_HEIGHT; cbn; lia.
  - unfold disjoint; cbn; lia.
Defined.

End FrameProofs.

(** ** The page router *)

Module NavProofs.
Import Nav.
Local Open Scope string_scope.

(** C4.  For every router state and every path that no registered route
    has (the null path among them), [navigateTo] returns false and
    leaves the router as it was: same stack depth, same top page. *)
Theorem navigateTo_unregistered
        (fuel : nat) (s : NavigationController) (p : option string)
        (clearStack : bool) :
  (forall q : string, p = Some q -> findRoute s q = None) ->
  exists s' : NavigationController,
    navigateTo (S fuel) p clearStack s = Some (false, s') /\
    s' = s /\
    getStackDepth s' = getStackDepth s /\
    getCurrentPage s' = getCurrentPage s.
Proof.
  intros Hnone. exists s. cbn [navigateTo].
  destruct p as [q |]; [rewrite (Hnone q eq_refl) |]; auto.
Qed.

Lemma navigateTo_unregistered_witness :
  exists s' : NavigationController,
    navigateTo 1 (Some "/nowhere") true atSettings = Some (false, s') /\
    s' = atSettings /\
    getStackDepth s' = getStackDepth atSettings /\
    getCurrentPage s' = getCurrentPage atSettings.
Proof.
  apply (navigateTo_unregistered 0 atSettings (Some "/nowhere") true).
  intros q Hq. injection Hq as <-. vm_compute. reflexivity.
Defined.

(** C5.  With at most one page on the stack [goBack] returns false and
    leaves the router, hence the stack with its depth and contents, as it
    was. *)
Theorem goBack_at_root (s : NavigationController) :
  (getStackDepth s <= 1)%nat ->
  goBack s = (false, s) /\
  m_stack (snd (goBack s)) = m_stack s.
Proof.
  unfold getStackDepth. intros Hdepth.
  assert (Hgo : goBack s = (false, s)).
  { unfold goBack, canGoBack.
    destruct (Nat.ltb_spec 1 (List.length (m_stack s))); [lia | reflexivity]. }
  rewrite Hgo. split; reflexivity.
Qed.

Lemma goBack_at_root_witness :
  goBack atHome = (false, atHome) /\
  m_stack (snd (goBack atHome)) = m_stack atHome.
Proof.
  apply (goBack_at_root atHome). vm_compute. lia.
Defined.

(** [goBack] succeeds exactly when there is a page to go back to. *)
Lemma goBack_succeeds (s : NavigationController) :
  fst (goBack s) = canGoBack s.
Proof. unfold goBack. destruct (canGoBack s); reflexivity. Qed.

(** C8.  After every [goBack] that returns true, [getCurrentRoute]
    returns null: the page below is entered and the current-route
    pointer is cleared. *)
Theorem goBack_clears_current_route (s s' : NavigationController) :
  goBack s = (true, s') -> getCurrentRoute s' = None.
Proof.
  unfold goBack, canGoBack.
  destruct (Nat.ltb_spec 1 (List.length (m_stack s))) as [Hdepth | Hdepth];
    cbn [negb]; [| discriminate].
  intros Hgo. injection Hgo as <-.
  unfold cleanupPage, record, set_stack. cbn [m_stack].
  destruct (m_stack s) as [| p1 [| p2 rest]]; cbn [List.length] in Hdepth;
    try lia.
  cbn [removelast]. reflexivity.
Qed.

Lemma goBack_clears_current_route_witness :
  getCurrentRoute atSettings = Some settingsRoute /\
  getCurrentRoute (snd (goBack atSettings)) = None.
Proof.
  split; [vm_compute; reflexivity |].
  apply (goBack_clears_current_route atSettings (snd (goBack atSettings))).
  vm_compute. reflexivity.
Defined.

End NavProofs.

(** * Further properties of the embedded code *)

(** ** The gesture recognizer: whole sessions *)

Module GestureSessions.
Import CInt CIntFacts Touch.
Local Open Scope Z_scope.

Lemma press_opens_session (s : TouchController) (p : Frame) :
  idle s -> touched p = true ->
  m_lastEvent (update p s) = NONE /\ inSession p false (update p s).
Proof.
  unfold idle, inSession, update. intros Hidle Hp.
  rewrite Hp, Hidle. cbn. auto 10.
Qed.

Lemma quiet_frame_silent (p f : Frame) (s : TouchController) :
  inSession p false s -> quietFrame p f ->
  m_lastEvent (update f s) = NONE /\ inSession p false (update f s).
Proof.
  unfold inSession, quietFrame.
  intros (Hp & Hd & Hx & Hy & Ht) (Hf & Hdx & Hdy & Hdur).
  unfold update. rewrite Hf, Hp. cbn [andb negb].
  unfold detectGestures.
  cbn [m_isDragging m_currentTouch m_touchStart m_touchStartTime x y].
  rewrite Hd, Hx, Hy, Ht. cbn [negb andb].
  replace (_ >? LONG_PRESS_DURATION) with false
    by (symmetry; rewrite Z.gtb_ltb; apply Z.ltb_ge; lia).
  replace (abs (wrap16 (raw_x f - raw_x p)) >? DRAG_THRESHOLD) with false
    by (symmetry; rewrite Z.gtb_ltb; apply Z.ltb_ge; lia).
  replace (abs (wrap16 (raw_y f - raw_y p)) >? DRAG_THRESHOLD) with false
    by (symmetry; rewrite Z.gtb_ltb; apply Z.ltb_ge; lia).
  cbn. auto 10.
Qed.

Lemma quick_release_taps (p r : Frame) (s : TouchController) :
  inSession p false s -> touched r = false ->
  wrapU32 (millis_now r - wrapU32 (millis_now p)) < TAP_MAX_DURATION ->
  m_lastEvent (update r s) = TAP /\ idle (update r s).
Proof.
  unfold inSession, idle. intros (Hp & Hd & _ & _ & Ht) Hr Hdur.
  unfold update. rewrite Hr, Hp. cbn [andb negb].
  cbn [m_isDragging m_touchStartTime]. rewrite Hd, Ht.
  replace (_ <? TAP_MAX_DURATION) with true by (symmetry; apply Z.ltb_lt; lia).
  cbn. auto 10.
Qed.

Lemma quiet_frames_then_release (p r : Frame) (held : list Frame) :
  touched r = false ->
  wrapU32 (millis_now r - wrapU32 (millis_now p)) < TAP_MAX_DURATION ->
  Forall (quietFrame p) held ->
  forall s : TouchController,
    inSession p false s ->
    run s (held ++ [r]) = repeat NONE (List.length held) ++ [TAP].
Proof.
  intros Hr Hdur. induction 1 as [| f held Hf Hheld IH]; intros s Hs.
  - cbn. now destruct (quick_release_taps p r s Hs Hr Hdur) as [-> _].
  - destruct (quiet_frame_silent p f s Hs Hf) as [He Hs'].
    cbn [app run List.length repeat]. cbv zeta. rewrite He. f_equal.
    now apply IH.
Qed.

(** A quick tap.  From an idle recognizer, a session whose held frames
    stay within the drag threshold and which is released less than
    300 ms after the press reports one event, [TAP], on the release
    frame and nothing on the frames before it. *)
Theorem quick_tap_session
        (s : TouchController) (p r : Frame) (held : list Frame) :
  idle s -> touched p = true ->
  Forall (quietFrame p) held ->
  touched r = false ->
  wrapU32 (millis_now r - wrapU32 (millis_now p)) < TAP_MAX_DURATION ->
  run s (p :: held ++ [r]) = NONE :: repeat NONE (List.length held) ++ [TAP] /\
  countEvent TAP (run s (p :: held ++ [r])) = 1%nat.
Proof.
  intros Hidle Hp Hheld Hr Hdur.
  destruct (press_opens_session s p Hidle Hp) as [He Hs].
  assert (Hrun : run s (p :: held ++ [r])
                 = NONE :: repeat NONE (List.length held) ++ [TAP]).
  { cbn [run]. cbv zeta. rewrite He. f_equal.
    now apply (quiet_frames_then_release p). }
  split; [exact Hrun |]. rewrite Hrun. unfold countEvent.
  cbn [filter TouchEvent_eqb]. rewrite filter_app. cbn [filter TouchEvent_eqb].
  rewrite length_app. cbn [List.length].
  assert (Hnone : forall n, filter (TouchEvent_eqb TAP) (repeat NONE n) = [])
    by (induction n; cbn; auto).
  now rewrite Hnone.
Qed.

Lemma quick_tap_session_witness :
  run init [mkFrame 100 100 true 1000 1000; mkFrame 104 97 true 1033 1033;
            mkFrame 104 97 false 1066 1066]
  = [NONE; NONE; TAP].
Proof.
  apply (quick_tap_session init (mkFrame 100 100 true 1000 1000)
           (mkFrame 104 97 false 1066 1066)
           [mkFrame 104 97 true 1033 1033]).
  - reflexivity.
  - reflexivity.
  - repeat constructor; vm_compute; congruence.
  - reflexivity.
  - vm_compute. reflexivity.
Defined.

(** *** Drags *)

Lemma drag_starts (p f : Frame) (s : TouchController) :
  inSession p false s -> touched f = true ->
  abs (wrap16 (raw_x f - raw_x p)) > DRAG_THRESHOLD \/
  abs (wrap16 (raw_y f - raw_y p)) > DRAG_THRESHOLD ->
  m_lastEvent (update f s) = DRAG_START /\ inSession p true (update f s).
Proof.
  unfold inSession. intros (Hp & Hd & Hx & Hy & Ht) Hf Hmove.
  unfold update. rewrite Hf, Hp. cbn [andb negb].
  unfold detectGestures.
  cbn [m_isDragging m_currentTouch m_touchStart m_touchStartTime x y].
  rewrite Hd, Hx, Hy, Ht. cbn [negb andb].
  assert (Hstill :
            (abs (wrap16 (raw_x f - raw_x p)) <? DRAG_THRESHOLD)
            && (abs (wrap16 (raw_y f - raw_y p)) <? DRAG_THRESHOLD) = false).
  { apply andb_false_iff. destruct Hmove; [left | right];
      apply Z.ltb_ge; unfold DRAG_THRESHOLD in *; lia. }
  rewrite Hstill, andb_false_r.
  assert (Hmoved :
            (abs (wrap16 (raw_x f - raw_x p)) >? DRAG_THRESHOLD)
            || (abs (wrap16 (raw_y f - raw_y p)) >? DRAG_THRESHOLD) = true).
  { apply orb_true_iff. destruct Hmove; [left | right];
      rewrite Z.gtb_ltb; apply Z.ltb_lt; lia. }
  rewrite Hmoved. cbn. auto 10.
Qed.

Lemma dragging_frame (p f : Frame) (s : TouchController) :
  inSession p true s -> touched f = true ->
  dragEvent (m_lastEvent (update f s)) /\ inSession p true (update f s).
Proof.
  unfold inSession, dragEvent. intros (Hp & Hd & Hx & Hy & Ht) Hf.
  unfold update. rewrite Hf, Hp. cbn [andb negb].
  unfold detectGestures.
  cbn [m_isDragging m_currentTouch m_touchStart m_touchStartTime x y].
  rewrite Hd, Hx, Hy, Ht. cbn [negb andb].
  destruct (_ || _); cbn; auto 10.
Qed.

Lemma dragging_release (p r : Frame) (s : TouchController) :
  inSession p true s -> touched r = false ->
  m_lastEvent (update r s) = DRAG_END /\ idle (update r s).
Proof.
  unfold inSession, idle. intros (Hp & Hd & _) Hr.
  unfold update. rewrite Hr, Hp. cbn [andb negb].
  cbn [m_isDragging]. rewrite Hd. cbn. auto 10.
Qed.

Lemma dragging_frames_then_release (p r : Frame) (held : list Frame) :
  touched r = false ->
  Forall (fun f => touched f = true) held ->
  forall s : TouchController,
    inSession p true s ->
    exists es : list TouchEvent,
      run s (held ++ [r]) = es ++ [DRAG_END] /\
      List.length es = List.length held /\ Forall dragEvent es.
Proof.
  intros Hr. induction 1 as [| f held Hf Hheld IH]; intros s Hs.
  - exists []. cbn. destruct (dragging_release p r s Hs Hr) as [-> _]. auto.
  - destruct (dragging_frame p f s Hs Hf) as [He Hs'].
    destruct (IH _ Hs') as (es & Hrun & Hlen & Hall).
    exists (m_lastEvent (update f s) :: es).
    cbn [app run List.length]. cbv zeta. rewrite Hrun, Hlen. auto.
Qed.

(** A drag.  When the first held frame of a session is more than 10 px
    from the press point on some axis, that frame reports [DRAG_START];
    every later held frame reports [DRAG_MOVE] or nothing (never
    [DRAG_START], [LONG_PRESS] or [TAP], however long the finger stays
    down); and the release reports [DRAG_END]. *)
Theorem drag_session
        (s : TouchController) (p f r : Frame) (held : list Frame) :
  idle s -> touched p = true -> touched f = true ->
  abs (wrap16 (raw_x f - raw_x p)) > DRAG_THRESHOLD \/
  abs (wrap16 (raw_y f - raw_y p)) > DRAG_THRESHOLD ->
  Forall (fun h => touched h = true) held ->
  touched r = false ->
  exists es : list TouchEvent,
    run s (p :: f :: held ++ [r]) = NONE :: DRAG_START :: es ++ [DRAG_END] /\
    List.length es = List.length held /\
    Forall dragEvent es.
Proof.
  intros Hidle Hp Hf Hmove Hheld Hr.
  destruct (press_opens_session s p Hidle Hp) as [He Hs].
  destruct (drag_starts p f _ Hs Hf Hmove) as [He' Hs'].
  destruct (dragging_frames_then_release p r held Hr Hheld _ Hs')
    as (es & Hrun & Hlen & Hall).
  exists es. cbn [run]. cbv zeta. rewrite He, He', Hrun. auto.
Qed.

Lemma drag_session_witness :
  exists es : list TouchEvent,
    run init [mkFrame 100 100 true 0 0; mkFrame 120 100 true 33 33;
              mkFrame 140 100 true 2000 2000; mkFrame 100 100 true 2033 2033;
              mkFrame 100 100 false 2066 2066]
    = NONE :: DRAG_START :: es ++ [DRAG_END] /\
    List.length es = 2%nat /\ Forall dragEvent es.
Proof.
  apply (drag_session init (mkFrame 100 100 true 0 0)
           (mkFrame 120 100 true 33 33) (mkFrame 100 100 false 2066 2066)
           [mkFrame 140 100 true 2000 2000; mkFrame 100 100 true 2033 2033]).
  - reflexivity.
  - reflexivity.
  - reflexivity.
  - left. vm_compute. reflexivity.
  - repeat constructor.
  - reflexivity.
Defined.

(** *** The events that are never reported *)

Lemma update_producible (s : TouchController) (f : Frame) :
  producible (m_lastEvent (update f s)).
Proof.
  unfold producible, update, detectGestures.
  destruct (touched f), (pressed (m_currentTouch s)); cbn [andb negb];
    cbn [m_isDragging m_touchStartTime m_lastEvent].
  - repeat match goal with
           | |- context [if ?c then _ else _] => destruct c
           end; cbn; auto 10.
  - cbn. auto.
  - repeat match goal with
           | |- context [if ?c then _ else _] => destruct c
           end; cbn; auto 10.
  - cbn. auto 10.
Qed.

(** Whatever the recognizer's state and whatever frames it is fed, it
    reports only [NONE], [TAP], [LONG_PRESS], [DRAG_START], [DRAG_MOVE]
    and [DRAG_END]: [DOUBLE_TAP] and the four swipes are never
    produced. *)
Theorem swipes_and_double_tap_never_reported (frames : list Frame) :
  forall (s : TouchController) (e : TouchEvent),
    In e (run s frames) ->
    producible e /\
    e <> DOUBLE_TAP /\ e <> SWIPE_UP /\ e <> SWIPE_DOWN /\
    e <> SWIPE_LEFT /\ e <> SWIPE_RIGHT.
Proof.
  induction frames as [| f frames IH]; intros s e Hin; [destruct Hin |].
  cbn [run] in Hin. cbv zeta in Hin. destruct Hin as [<- | Hin].
  - pose proof (update_producible s f) as Hp. split; [exact Hp |].
    unfold producible in Hp.
    repeat split; intros Heq; rewrite Heq in Hp;
      repeat (destruct Hp as [Hp | Hp]; try discriminate).
  - eapply IH. exact Hin.
Qed.

Lemma swipes_and_double_tap_never_reported_witness :
  producible DRAG_START /\
  DRAG_START <> DOUBLE_TAP /\ DRAG_START <> SWIPE_UP /\
  DRAG_START <> SWIPE_DOWN /\ DRAG_START <> SWIPE_LEFT /\
  DRAG_START <> SWIPE_RIGHT.
Proof.
  apply (swipes_and_double_tap_never_reported
           [mkFrame 100 100 true 0 0; mkFrame 160 100 true 33 33] init).
  vm_compute. auto.
Defined.

(** *** The circular screen *)

(** Every point that [isInsideCircle] accepts lies on the 360 x 360
    surface.  (The one pair of [int16_t] coordinates left out is the one
    for which the sum of squares overflows [int].) *)
Theorem inside_circle_on_screen (px py : Z) :
  int16_range px -> int16_range py ->
  px <> -32588 \/ py <> -32588 ->
  isInsideCircle px py = true ->
  0 <= px <= 360 /\ 0 <= py <= 360.
Proof.
  unfold int16_range, isInsideCircle,
    Config.SCREEN_CENTER_X, Config.SCREEN_CENTER_Y, Config.SCREEN_RADIUS.
  intros Hx Hy Hne Hin. apply Z.leb_le in Hin.
  pose proof (wrap16_range (px - 180)) as Hdx.
  pose proof (wrap16_range (py - 180)) as Hdy.
  unfold int16_range in Hdx, Hdy.
  assert (Hxw : wrap16 (px - 180) = px - 180 \/
                (px < -32588 /\ wrap16 (px - 180) = px - 180 + 65536)).
  { destruct (Z_lt_le_dec px (-32588)).
    - right. split; [assumption |]. unfold wrap16.
      replace (px - 180 + 32768) with (px + 98124 + (-1) * 65536) by lia.
      rewrite Z_mod_plus_full, Z.mod_small by lia. lia.
    - left. apply wrap16_small. unfold int16_range. lia. }
  assert (Hyw : wrap16 (py - 180) = py - 180 \/
                (py < -32588 /\ wrap16 (py - 180) = py - 180 + 65536)).
  { destruct (Z_lt_le_dec py (-32588)).
    - right. split; [assumption |]. unfold wrap16.
      replace (py - 180 + 32768) with (py + 98124 + (-1) * 65536) by lia.
      rewrite Z_mod_plus_full, Z.mod_small by lia. lia.
    - left. apply wrap16_small. unfold int16_range. lia. }
  set (dx := wrap16 (px - 180)) in *. set (dy := wrap16 (py - 180)) in *.
  assert (Hsum : 0 <= dx * dx + dy * dy < 2147483648).
  { assert (dx * dx <= 32768 * 32768) by nia.
    assert (dy * dy <= 32768 * 32768) by nia.
    assert (dx = -32768 -> dy = -32768 -> False) by lia.
    assert (dx * dx < 32768 * 32768 \/ dy * dy < 32768 * 32768) by nia.
    nia. }
  assert (Hw : wrapS32 (dx * dx + dy * dy) = dx * dx + dy * dy).
  { unfold wrapS32. rewrite Z.mod_small by lia. lia. }
  rewrite Hw in Hin.
  assert (-180 <= dx <= 180) by nia.
  assert (-180 <= dy <= 180) by nia.
  lia.
Qed.

Lemma inside_circle_on_screen_witness :
  0 <= 300 <= 360 /\ 0 <= 60 <= 360.
Proof.
  apply (inside_circle_on_screen 300 60).
  - unfold int16_range. lia.
  - unfold int16_range. lia.
  - left. lia.
  - vm_compute. reflexivity.
Defined.

End GestureSessions.

(** ** The circular slider: values and angles *)

Module SliderValues.
Import CInt CIntFacts Slider SliderProofs.
Local Open Scope Z_scope.

(** *** [setValue] *)

(** The value that [setValue] aims at: its argument after the two
    clamping tests. *)
Lemma setValue_value (value : R) (s : CircularSlider) :
  let v1 := if Rltb value (m_minValue s) then m_minValue s else value in
  let v2 := if Rltb (m_maxValue s) v1 then m_maxValue s else v1 in
  m_value (setValue value s) = v2 /\
  m_minValue (setValue value s) = m_minValue s /\
  m_maxValue (setValue value s) = m_maxValue s.
Proof.
  cbv zeta. unfold setValue.
  set (v1 := if Rltb value (m_minValue s) then m_minValue s else value).
  set (v2 := if Rltb (m_maxValue s) v1 then m_maxValue s else v1).
  clearbody v2. clear v1.
  destruct (Reqb (m_value s) v2) eqn:Heq.
  - apply Reqb_true in Heq. auto.
  - set (s1 := set_targetValue v2 (set_value v2 s)).
    generalize (normalizeAngle
                  (wrap16
                     (m_startAngle s1 +
                      castInt16
                        ((m_value s1 - m_minValue s1) /
                         (m_maxValue s1 - m_minValue s1) * 270)))).
    intros a. repeat split; reflexivity.
Qed.

(** Round trip.  With [min <= max], [getValue] right after [setValue(v)]
    returns [v] when [v] is within the range, [min] when it is below and
    [max] when it is above: the value is set at once, without
    smoothing. *)
Theorem setValue_then_getValue (value : R) (s : CircularSlider) :
  (m_minValue s <= m_maxValue s)%R ->
  let got := m_value (setValue value s) in
  ((m_minValue s <= value <= m_maxValue s)%R -> got = value) /\
  ((value < m_minValue s)%R -> got = m_minValue s) /\
  ((m_maxValue s < value)%R -> got = m_maxValue s).
Proof.
  intros Hord. cbv zeta.
  destruct (setValue_value value s) as [-> _].
  destruct (Rltb value (m_minValue s)) eqn:E1;
    [apply Rltb_true in E1 | apply Rltb_false in E1];
    match goal with |- context [Rltb ?a ?b] => destruct (Rltb a b) eqn:E2 end;
    [apply Rltb_true in E2 | apply Rltb_false in E2
     | apply Rltb_true in E2 | apply Rltb_false in E2];
    repeat split; intros; lra.
Qed.

Lemma setValue_then_getValue_witness :
  m_value (setValue 250 (new 180 180 100 80)) = 100%R.
Proof.
  apply (setValue_then_getValue 250 (new 180 180 100 80)); cbn; lra.
Defined.

(** [setValue] is idempotent: the second call with the same argument
    finds the value already there and changes nothing, whatever the
    range. *)
Theorem setValue_idempotent (value : R) (s : CircularSlider) :
  setValue value (setValue value s) = setValue value s.
Proof.
  destruct (setValue_value value s) as (Hv & Hlo & Hhi). cbv zeta in Hv.
  revert Hv Hlo Hhi. generalize (setValue value s). intros s' Hv Hlo Hhi.
  unfold setValue at 1. rewrite Hlo, Hhi, Hv.
  destruct (Reqb _ _) eqn:Heq; [reflexivity |].
  apply Reqb_false in Heq. congruence.
Qed.

(** *** [setRange] *)

Lemma calculateValueFromAngle_ignores_value (v : R) (s : CircularSlider) :
  calculateValueFromAngle (set_value v s) = calculateValueFromAngle s.
Proof. destruct s. reflexivity. Qed.

Lemma setRange_unclamped (lo hi : R) (s : CircularSlider) :
  setRange lo hi s = calculateValueFromAngle (set_range lo hi s).
Proof.
  unfold setRange. generalize (set_range lo hi s). intros s1.
  destruct (Rltb (m_value s1) (m_minValue s1)).
  - destruct (Rltb _ _);
      now rewrite ?calculateValueFromAngle_ignores_value.
  - destruct (Rltb _ _); now rewrite ?calculateValueFromAngle_ignores_value.
Qed.

(** [setRange] recomputes the value from the angle, so the value the
    slider had before plays no part: the clamp that [setRange] applies
    to it is overwritten, and the new value is the point of the new range
    at the fraction of the sweep that the angle marks. *)
Theorem setRange_ignores_value (lo hi old : R) (s : CircularSlider) :
  setRange lo hi (set_value old s) = setRange lo hi s /\
  m_value (setRange lo hi s) =
    (lo + IZR (relativeTo (m_startAngle s) (m_currentAngle s)) / 270
          * (hi - lo))%R.
Proof.
  split.
  - rewrite !setRange_unclamped.
    replace (set_range lo hi (set_value old s))
      with (set_value old (set_range lo hi s)) by (destruct s; reflexivity).
    apply calculateValueFromAngle_ignores_value.
  - apply setRange_members.
Qed.

(** *** Touches *)

Lemma sqrt_le_iff (k n : Z) :
  0 <= k -> 0 <= n -> (IZR k <= sqrt (IZR n))%R <-> k * k <= n.
Proof.
  intros Hk Hn.
  assert (Hk' : (0 <= IZR k)%R) by (apply IZR_le; lia).
  assert (Hn' : (0 <= IZR n)%R) by (apply IZR_le; lia).
  pose proof (sqrt_sqrt _ Hn') as Hsq. pose proof (sqrt_pos (IZR n)) as Hp.
  split; intros H.
  - apply le_IZR. rewrite mult_IZR. nra.
  - apply IZR_le in H. rewrite mult_IZR in H.
    destruct (Rle_lt_dec (IZR k) (sqrt (IZR n))); [assumption | nra].
Qed.

Lemma sqrt_ge_iff (k n : Z) :
  0 <= k -> 0 <= n -> (sqrt (IZR n) <= IZR k)%R <-> n <= k * k.
Proof.
  intros Hk Hn.
  assert (Hk' : (0 <= IZR k)%R) by (apply IZR_le; lia).
  assert (Hn' : (0 <= IZR n)%R) by (apply IZR_le; lia).
  pose proof (sqrt_sqrt _ Hn') as Hsq. pose proof (sqrt_pos (IZR n)) as Hp.
  split; intros H.
  - apply le_IZR. rewrite mult_IZR. nra.
  - apply IZR_le in H. rewrite mult_IZR in H.
    destruct (Rle_lt_dec (sqrt (IZR n)) (IZR k)); [assumption | nra].
Qed.

Lemma contains_squares (s : CircularSlider) (px py : Z) :
  0 <= m_innerRadius s -> 0 <= m_radius s ->
  let dx := wrap16 (px - m_centerX s) in
  let dy := wrap16 (py - m_centerY s) in
  contains s px py = true <->
  m_innerRadius s * m_innerRadius s <= dx * dx + dy * dy
                                    <= m_radius s * m_radius s.
Proof.
  intros Hin Hout. cbv zeta. unfold contains, distance.
  set (dx := wrap16 (px - m_centerX s)). set (dy := wrap16 (py - m_centerY s)).
  assert (Hn : 0 <= dx * dx + dy * dy) by nia.
  rewrite andb_true_iff, !Rleb_true.
  rewrite (sqrt_le_iff _ _ Hin Hn), (sqrt_ge_iff _ _ Hout Hn). tauto.
Qed.

(** [contains] is the ring test on squared distances: a point is
    accepted exactly when the square of its distance from the centre
    lies between the squares of the two radii.  The angle plays no
    part. *)
Theorem contains_iff_squares (s : CircularSlider) (px py : Z) :
  0 <= m_innerRadius s -> 0 <= m_radius s ->
  let dx := wrap16 (px - m_centerX s) in
  let dy := wrap16 (py - m_centerY s) in
  contains s px py = true <->
  m_innerRadius s * m_innerRadius s <= dx * dx + dy * dy
                                    <= m_radius s * m_radius s.
Proof. exact (contains_squares s px py). Qed.

Lemma contains_iff_squares_witness :
  contains (new 180 180 100 80) 240 260 = true.
Proof.
  apply (contains_iff_squares (new 180 180 100 80) 240 260);
    vm_compute; intuition discriminate.
Defined.

(** The relative angle of a touch reads the centre and the start angle
    only. *)
Lemma touchRelativeAngle_same (s s' : CircularSlider) (px py : Z) :
  m_centerX s' = m_centerX s -> m_centerY s' = m_centerY s ->
  m_startAngle s' = m_startAngle s ->
  touchRelativeAngle s' px py = touchRelativeAngle s px py.
Proof.
  unfold touchRelativeAngle, touchAngleDeg. now intros -> -> ->.
Qed.

(** The angle from a touch followed by the value from the angle. *)
Lemma value_from_touch (s : CircularSlider) (px py : Z) :
  m_startAngle s = 135 ->
  let rel := clampRelativeAngle (touchRelativeAngle s px py) in
  let s' := calculateValueFromAngle (calculateAngleFromTouch px py s) in
  0 <= rel <= 270 /\
  m_value s' =
    (m_minValue s + IZR rel / 270 * (m_maxValue s - m_minValue s))%R /\
  m_targetValue s' = m_value s' /\
  (m_currentAngle s' - 135) mod 360 = rel /\
  m_isDragging s' = m_isDragging s /\
  m_onValueChanged s' = m_onValueChanged s /\
  notified s' = notified s.
Proof.
  intros Hs. cbv zeta. unfold calculateAngleFromTouch. rewrite Hs.
  pose proof (clampRelativeAngle_range _
                (proj1 (touchRelativeAngle_range s px py Hs))) as Hrel.
  revert Hrel. generalize (clampRelativeAngle (touchRelativeAngle s px py)).
  intros rel Hrel.
  pose proof (normalized_in_sweep rel Hrel) as Ha. cbv zeta in Ha.
  revert Ha. generalize (normalizeAngle (wrap16 (135 + rel))).
  intros a [Ha1 Ha2].
  unfold calculateValueFromAngle. setters. fields.
  rewrite Hs, relativeTo_135, Ha2 by assumption. auto 10.
Qed.

Lemma touch_update (tp : Touch.TouchPoint) (s : CircularSlider) :
  m_enabled s = true -> m_startAngle s = 135 ->
  Touch.pressed tp = true ->
  contains s (Touch.x tp) (Touch.y tp) = true ->
  let rel := clampRelativeAngle
               (touchRelativeAngle s (Touch.x tp) (Touch.y tp)) in
  let s' := update tp s in
  0 <= rel <= 270 /\
  m_value s' =
    (m_minValue s + IZR rel / 270 * (m_maxValue s - m_minValue s))%R /\
  m_targetValue s' = m_value s' /\
  (m_currentAngle s' - 135) mod 360 = rel /\
  m_isDragging s' = true /\ m_hasChanged s' = true /\
  notified s' = (if m_onValueChanged s then m_value s' :: notified s
                 else notified s).
Proof.
  intros Hen Hs Hp Hc. cbv zeta. unfold update.
  rewrite Hen, Hp, Hc. cbn [negb andb].
  set (s2 := if negb (m_isDragging s) then set_isDragging true s else s).
  assert (H2 : m_startAngle s2 = 135 /\
               touchRelativeAngle s2 (Touch.x tp) (Touch.y tp)
               = touchRelativeAngle s (Touch.x tp) (Touch.y tp) /\
               m_minValue s2 = m_minValue s /\ m_maxValue s2 = m_maxValue s /\
               m_isDragging s2 = true /\
               m_onValueChanged s2 = m_onValueChanged s /\
               notified s2 = notified s).
  { unfold s2. destruct (m_isDragging s) eqn:Hd; cbn [negb];
      (split; [exact Hs |]);
      (split; [apply touchRelativeAngle_same; reflexivity |]);
      repeat split; assumption || reflexivity. }
  clearbody s2. destruct H2 as (Hs2 & Hrel2 & Hlo & Hhi & Hd & Hcb & Hnt).
  destruct (value_from_touch s2 (Touch.x tp) (Touch.y tp) Hs2)
    as (Hrel & Hv & Ht & Ha & Hd' & Hcb' & Hnt').
  cbv zeta in *. rewrite Hrel2, Hlo, Hhi in *. rewrite Hd in Hd'.
  rewrite Hcb in Hcb'. rewrite Hnt in Hnt'.
  revert Hv Ht Ha Hd' Hcb' Hnt'.
  generalize (calculateValueFromAngle
                (calculateAngleFromTouch (Touch.x tp) (Touch.y tp) s2)).
  intros c Hv Ht Ha Hd' Hcb' Hnt'.
  assert (Hcb4 : m_onValueChanged (set_hasChanged true c) = m_onValueChanged s)
    by exact Hcb'.
  rewrite Hcb4.
  destruct (m_onValueChanged s).
  - unfold smooth.
    replace (Reqb (m_value (add_notified _ _)) (m_targetValue (add_notified _ _)))
      with true by (symmetry; apply Reqb_true; symmetry; exact Ht).
    setters. fields. rewrite Hnt'. auto 10.
  - unfold smooth.
    replace (Reqb (m_value (set_hasChanged true c))
                  (m_targetValue (set_hasChanged true c)))
      with true by (symmetry; apply Reqb_true; symmetry; exact Ht).
    setters. fields. auto 10.
Qed.

(** A touch inside the ring of an enabled slider sets the value at once
    to the point of the range that corresponds to the clamped relative
    angle of the touch, [min + rel / 270 * (max - min)]; target and
    value agree (the smoothing step has nothing to do), the slider is
    dragging and marked changed, and the callback, if any, is called
    with the new value. *)
Theorem touch_sets_value (tp : Touch.TouchPoint) (s : CircularSlider) :
  m_enabled s = true -> m_startAngle s = 135 ->
  Touch.pressed tp = true ->
  contains s (Touch.x tp) (Touch.y tp) = true ->
  let rel := clampRelativeAngle
               (touchRelativeAngle s (Touch.x tp) (Touch.y tp)) in
  let s' := update tp s in
  0 <= rel <= 270 /\
  m_value s' =
    (m_minValue s + IZR rel / 270 * (m_maxValue s - m_minValue s))%R /\
  m_targetValue s' = m_value s' /\
  (m_currentAngle s' - 135) mod 360 = rel /\
  m_isDragging s' = true /\ m_hasChanged s' = true /\
  notified s' = (if m_onValueChanged s then m_value s' :: notified s
                 else notified s).
Proof. exact (touch_update tp s). Qed.

Lemma touch_sets_value_witness :
  let s := new 180 180 100 80 in
  let tp := Touch.mkTouchPoint 270 180 true 0 in
  m_isDragging (update tp s) = true.
Proof.
  cbv zeta.
  apply (touch_sets_value (Touch.mkTouchPoint 270 180 true 0)
                          (new 180 180 100 80));
    try reflexivity.
  exact right_of_centre_contained.
Defined.

(** The touch angle of a point straight left of the centre is 270
    degrees in the "0 = up" frame. *)
Lemma left_of_centre_angle (s : CircularSlider) (px py : Z) :
  wrap16 (px - m_centerX s) < 0 -> wrap16 (py - m_centerY s) = 0 ->
  touchAngleDeg s px py = 270.
Proof.
  intros Hdx Hdy. unfold touchAngleDeg. rewrite Hdy.
  unfold atan2.
  destruct (Z.ltb_spec 0 (wrap16 (px - m_centerX s))); [lia |].
  destruct (Z.ltb_spec (wrap16 (px - m_centerX s)) 0); [| lia].
  change (0 <=? 0) with true. cbv iota.
  unfold Rdiv at 1. rewrite Rmult_0_l, atan_0, Rplus_0_l.
  replace (PI * RAD_TO_DEG)%R with 180%R
    by (unfold RAD_TO_DEG; field; apply PI_neq0).
  unfold castInt16. rewrite (trunc_IZR 180) by lia.
  vm_compute. reflexivity.
Qed.

(** Half of the sweep is half of the range.  A touch straight left of
    the centre, inside the ring of an enabled slider, lies 135 degrees
    past the start of the arc and sets the value to the midpoint of
    the range (50 for the range 0 to 100). *)
Theorem touch_left_of_centre_is_midpoint
        (tp : Touch.TouchPoint) (s : CircularSlider) :
  m_enabled s = true -> m_startAngle s = 135 ->
  Touch.pressed tp = true ->
  contains s (Touch.x tp) (Touch.y tp) = true ->
  wrap16 (Touch.x tp - m_centerX s) < 0 ->
  wrap16 (Touch.y tp - m_centerY s) = 0 ->
  touchRelativeAngle s (Touch.x tp) (Touch.y tp) = 135 /\
  m_value (update tp s) = ((m_minValue s + m_maxValue s) / 2)%R.
Proof.
  intros Hen Hs Hp Hc Hdx Hdy.
  assert (Hrel : touchRelativeAngle s (Touch.x tp) (Touch.y tp) = 135).
  { unfold touchRelativeAngle.
    rewrite (left_of_centre_angle s _ _ Hdx Hdy), Hs. reflexivity. }
  split; [exact Hrel |].
  destruct (touch_update tp s Hen Hs Hp Hc) as (_ & Hv & _).
  cbv zeta in Hv. rewrite Hv, Hrel.
  change (clampRelativeAngle 135) with 135. lra.
Qed.

Lemma touch_left_of_centre_is_midpoint_witness :
  m_value (update (Touch.mkTouchPoint 90 180 true 0) (new 180 180 100 80))
  = ((0 + 100) / 2)%R.
Proof.
  apply (touch_left_of_centre_is_midpoint
           (Touch.mkTouchPoint 90 180 true 0) (new 180 180 100 80)).
  - reflexivity.
  - reflexivity.
  - reflexivity.
  - apply contains_squares; vm_compute; intuition discriminate.
  - vm_compute. reflexivity.
  - vm_compute. reflexivity.
Defined.



(** [normalizeAngle] terminates on every [int16_t] argument with the
    residue of the angle modulo 360, a value from 0 to 359; normalizing
    twice is normalizing once. *)
Theorem normalizeAngle_residue (a : Z) :
  int16_range a ->
  normalizeAngle a = a mod 360 /\
  0 <= normalizeAngle a < 360 /\
  normalizeAngle (normalizeAngle a) = normalizeAngle a.
Proof.
  intros Ha. pose proof (normalizeAngle_range a Ha) as Hr.
  rewrite (normalizeAngle_mod (normalizeAngle a))
    by (unfold int16_range; lia).
  rewrite normalizeAngle_mod in * by assumption.
  repeat split; try lia. apply Z.mod_small. lia.
Qed.

Lemma normalizeAngle_residue_witness :
  normalizeAngle (-32768) = 352.
Proof.
  apply (normalizeAngle_residue (-32768)). unfold int16_range. lia.
Defined.

End SliderValues.

(** ** The hexagonal grid: numbering, scrolling, hit-testing *)

Module HexLayout.
Import CInt CIntFacts Config Hex HexProofs.
Local Open Scope Z_scope.

Ltac zdiv := Z.to_euclidean_division_equations; lia.

(** *** Rings *)

(** The ring search.  For an index from 1 to 90 the search ends in a ring
    [r] from 1 to 5 with exactly the slots of the centre and of the rings
    1 to r - 1 before it, [1 + 3 r (r - 1)] of them; the index falls in
    ring [r], which holds [6 r] slots. *)
Theorem ring_of_index (idx : Z) :
  1 <= idx <= 90 ->
  exists r before : Z,
    ringSearch RING_ITEMS 0 idx 0 0 = (r, before) /\
    1 <= r <= 5 /\
    before = slotsBefore r /\
    before <= idx < before + 6 * r /\
    nth (Z.to_nat r) RING_ITEMS 0 = 6 * r.
Proof.
  intros Hidx. unfold RING_ITEMS, slotsBefore. cbn [ringSearch].
  change (0 + 1) with 1. change (1 + 6) with 7. change (7 + 12) with 19.
  change (19 + 18) with 37. change (37 + 24) with 61.
  change (61 + 30) with 91.
  destruct (Z.ltb_spec idx 1); [lia |].
  destruct (Z.ltb_spec idx 7); [exists 1, 1; cbn; repeat split; lia |].
  destruct (Z.ltb_spec idx 19); [exists 2, 7; cbn; repeat split; lia |].
  destruct (Z.ltb_spec idx 37); [exists 3, 19; cbn; repeat split; lia |].
  destruct (Z.ltb_spec idx 61); [exists 4, 37; cbn; repeat split; lia |].
  destruct (Z.ltb_spec idx 91); [exists 5, 61; cbn; repeat split; lia | lia].
Qed.

Lemma ring_of_index_witness :
  exists r before : Z,
    ringSearch RING_ITEMS 0 20 0 0 = (r, before) /\
    1 <= r <= 5 /\
    before = slotsBefore r /\
    before <= 20 < before + 6 * r /\
    nth (Z.to_nat r) RING_ITEMS 0 = 6 * r.
Proof. apply (ring_of_index 20). lia. Defined.

(** *** Items keep their numbering and their places *)

Lemma reindexFrom_nth (items : list GridItem) :
  forall (i : Z) (k : nat),
    nth_error (reindexFrom i items) k =
    option_map (item_set_index (i + Z.of_nat k)) (nth_error items k).
Proof.
  induction items as [| first rest IH]; intros i k.
  - destruct k; reflexivity.
  - destruct k as [| k]; cbn [reindexFrom nth_error option_map].
    + now rewrite Z.add_0_r.
    + rewrite IH. now replace (i + 1 + Z.of_nat k) with (i + Z.of_nat (S k)) by lia.
Qed.

Lemma reindexFrom_length (items : list GridItem) :
  forall i : Z, List.length (reindexFrom i items) = List.length items.
Proof.
  induction items as [| first rest IH]; intros i; cbn; [| rewrite IH]; reflexivity.
Qed.

(** Items laid out by [calculateItemPositions] followed by
    [updateScrollBounds]. *)
Lemma relaid_items (items : list GridItem) (g : HexagonalGrid) :
  let g' := updateScrollBounds (calculateItemPositions (set_items items g)) in
  m_items g' = positionsFrom g 0 items /\ sameLayout g g' /\
  m_itemRadius g' = m_itemRadius g /\
  m_scrollOffsetX g' = m_scrollOffsetX g /\
  m_scrollOffsetY g' = m_scrollOffsetY g.
Proof.
  cbv zeta.
  destruct (updateScrollBounds_items
              (calculateItemPositions (set_items items g)))
    as (Hitems & (Hx & Hy & Hd) & Hr & Hsx & Hsy).
  rewrite Hitems. unfold sameLayout. rewrite Hx, Hy, Hd, Hr, Hsx, Hsy.
  unfold calculateItemPositions. cbn [m_items set_items].
  split; [| cbn; auto 10].
  apply positionsFrom_layout. unfold sameLayout. cbn. auto.
Qed.

Lemma relaid_positioned (items : list GridItem) (g : HexagonalGrid) :
  positioned (updateScrollBounds (calculateItemPositions (set_items items g))).
Proof.
  destruct (relaid_items items g) as (Hitems & Hlay & _). cbv zeta in *.
  intros k it Hk. rewrite Hitems in Hk.
  apply positionsFrom_nth in Hk. rewrite Hk.
  symmetry. now apply getHexPosition_layout.
Qed.

Lemma relaid_dense (items : list GridItem) (g : HexagonalGrid) :
  (forall k it, nth_error items k = Some it -> index it = Z.of_nat k) ->
  denselyIndexed (updateScrollBounds (calculateItemPositions (set_items items g))).
Proof.
  intros Hdense. destruct (relaid_items items g) as (Hitems & _).
  cbv zeta in *. intros k it Hk. rewrite Hitems, positionsFrom_item in Hk.
  destruct (nth_error items k) as [it0 |] eqn:Hk0; [| discriminate].
  cbn [option_map] in Hk. destruct (getHexPosition g _).
  injection Hk as <-. cbn [index item_set_position]. now apply Hdense.
Qed.

Lemma addItem_dense (item : GridItem) (g : HexagonalGrid) :
  denselyIndexed g -> denselyIndexed (addItem item g).
Proof.
  intros Hdense. unfold addItem. apply relaid_dense.
  intros k it Hk.
  destruct (Nat.lt_ge_cases k (List.length (m_items g))) as [Hlt | Hge].
  - rewrite nth_error_app1 in Hk by assumption. now apply Hdense.
  - rewrite nth_error_app2 in Hk by assumption.
    destruct (k - List.length (m_items g))%nat as [| d] eqn:Hd.
    + cbn in Hk. injection Hk as <-. cbn. f_equal. lia.
    + destruct d; discriminate.
Qed.

Lemma removeItem_dense (idx : Z) (g : HexagonalGrid) :
  denselyIndexed g -> denselyIndexed (removeItem idx g).
Proof.
  intros Hdense. unfold removeItem.
  destruct (_ && _); [| assumption].
  apply relaid_dense. intros k it Hk.
  rewrite reindexFrom_nth in Hk.
  destruct (nth_error _ k); [| discriminate].
  cbn in Hk. now injection Hk as <-.
Qed.

Lemma removeItem_positioned (idx : Z) (g : HexagonalGrid) :
  positioned g -> positioned (removeItem idx g).
Proof.
  intros Hpos. unfold removeItem.
  destruct (_ && _); [apply relaid_positioned | assumption].
Qed.

Lemma render_item (sprite : bool) (g : HexagonalGrid) (k : nat) (it' : GridItem) :
  nth_error (m_items (render sprite g)) k = Some it' ->
  exists it : GridItem,
    nth_error (m_items g) k = Some it /\
    x it' = x it /\ y it' = y it /\ index it' = index it /\
    visible it' = (if sprite then isItemVisible g it else visible it).
Proof.
  unfold render. destruct sprite; cbn [negb].
  - cbn [m_items set_items]. rewrite nth_error_map.
    destruct (nth_error (m_items g) k) as [it |]; [| discriminate].
    cbn. intros [= <-]. exists it. cbn. auto.
  - intros Hk. exists it'. auto.
Qed.

Lemma render_layout (sprite : bool) (g : HexagonalGrid) :
  sameLayout g (render sprite g).
Proof. unfold render, sameLayout. destruct sprite; cbn; auto. Qed.

Lemma handleDrag_items (dx dy : Z) (g : HexagonalGrid) :
  m_items (handleDrag dx dy g) = m_items g /\
  sameLayout g (handleDrag dx dy g).
Proof. unfold handleDrag, sameLayout. cbn. auto. Qed.

Lemma setScrollOffset_items (ox oy : Z) (g : HexagonalGrid) :
  m_items (setScrollOffset ox oy g) = m_items g /\
  sameLayout g (setScrollOffset ox oy g).
Proof. unfold setScrollOffset, sameLayout. cbn. auto. Qed.

Lemma apply_keeps_numbering (g : HexagonalGrid) (op : Op) :
  denselyIndexed g /\ positioned g ->
  denselyIndexed (apply g op) /\ positioned (apply g op).
Proof.
  intros [Hdense Hpos].
  destruct op as [item | idx | | sprite | dx dy | ox oy]; cbn [apply].
  - split; [now apply addItem_dense | apply addItem_positioned].
  - split; [now apply removeItem_dense | now apply removeItem_positioned].
  - split; intros k it Hk; destruct k; discriminate.
  - split; intros k it' Hk;
      destruct (render_item sprite g k it' Hk) as (it & Hit & Hx & Hy & Hi & _).
    + rewrite Hi. now apply Hdense.
    + rewrite Hx, Hy, (Hpos k it Hit).
      symmetry. apply getHexPosition_layout, render_layout.
  - destruct (handleDrag_items (wrap16 dx) (wrap16 dy) g) as [Hitems Hlay].
    split; intros k it Hk; rewrite Hitems in Hk.
    + now apply Hdense.
    + rewrite (Hpos k it Hk). symmetry. now apply getHexPosition_layout.
  - destruct (setScrollOffset_items (wrap16 ox) (wrap16 oy) g) as [Hitems Hlay].
    split; intros k it Hk; rewrite Hitems in Hk.
    + now apply Hdense.
    + rewrite (Hpos k it Hk). symmetry. now apply getHexPosition_layout.
Qed.

(** Numbering and placement are kept by every operation.  In a grid made
    by the constructor and any sequence of [addItem], [removeItem],
    [clear], [render], [handleDrag] and [setScrollOffset] calls, every
    item carries its position in the list as its index and sits at the
    place [getHexPosition] computes for that index; the first item, if
    there is one, is at the centre. *)
Theorem numbering_and_places_kept
        (centerX centerY itemRadius spacing : Z) (ops : list Op) :
  let g := fold_left apply ops (new centerX centerY itemRadius spacing) in
  denselyIndexed g /\ positioned g /\
  (forall first : GridItem,
      nth_error (m_items g) 0 = Some first ->
      (x first, y first) = (m_centerX g, m_centerY g)).
Proof.
  cbv zeta.
  assert (Hinv : forall g,
             denselyIndexed g /\ positioned g ->
             denselyIndexed (fold_left apply ops g) /\
             positioned (fold_left apply ops g)).
  { induction ops as [| op ops IH]; intros g Hg; [exact Hg |].
    cbn [fold_left]. apply IH. now apply apply_keeps_numbering. }
  destruct (Hinv (new centerX centerY itemRadius spacing)) as [Hd Hp].
  { split; intros k it Hk; destruct k; discriminate. }
  repeat split; try assumption.
  intros first Hfirst. apply (Hp 0%nat first Hfirst).
Qed.

Lemma numbering_and_places_kept_witness :
  denselyIndexed
    (fold_left apply
       [OpAddItem plainItem; OpAddItem plainItem; OpRemoveItem 0;
        OpHandleDrag 5 5; OpRender true]
       (new 180 180 40 10)).
Proof.
  exact (proj1 (numbering_and_places_kept 180 180 40 10
                  [OpAddItem plainItem; OpAddItem plainItem; OpRemoveItem 0;
                   OpHandleDrag 5 5; OpRender true])).
Defined.

(** *** Removing an item *)

Lemma positionsFrom_content (g : HexagonalGrid) (items : list GridItem) :
  forall i : Z, map content (positionsFrom g i items) = map content items.
Proof.
  induction items as [| first rest IH]; intros i; cbn [positionsFrom map].
  - reflexivity.
  - destruct (getHexPosition g i). cbn [map]. now rewrite IH.
Qed.

Lemma reindexFrom_content (items : list GridItem) :
  forall i : Z, map content (reindexFrom i items) = map content items.
Proof.
  induction items as [| first rest IH]; intros i; cbn [reindexFrom map].
  - reflexivity.
  - now rewrite IH.
Qed.

Lemma erase_length (n : nat) (items : list GridItem) :
  (n < List.length items)%nat ->
  S (List.length (erase n items)) = List.length items.
Proof.
  intros Hn. unfold erase.
  rewrite length_app, firstn_length_le, length_skipn by lia. lia.
Qed.

(** [removeItem] with an index in range takes exactly that item out: one
    item fewer, the others in their order with their labels, callbacks
    and visibility, renumbered.  With an index out of range, negative
    ones included, it changes nothing. *)
Theorem removeItem_takes_one_out (idx : Z) (g : HexagonalGrid) :
  (0 <= idx < Z.of_nat (List.length (m_items g)) ->
   S (List.length (m_items (removeItem idx g))) = List.length (m_items g) /\
   map content (m_items (removeItem idx g))
   = map content (erase (Z.to_nat idx) (m_items g)) /\
   denselyIndexed (removeItem idx g)) /\
  (idx < 0 \/ Z.of_nat (List.length (m_items g)) <= idx ->
   removeItem idx g = g).
Proof.
  unfold removeItem. split.
  - intros Hidx.
    destruct (Z.leb_spec 0 idx); [| lia].
    destruct (Z.ltb_spec idx (Z.of_nat (List.length (m_items g)))); [| lia].
    cbn [andb].
    destruct (relaid_items (reindexFrom 0 (erase (Z.to_nat idx) (m_items g))) g)
      as (Hitems & _).
    cbv zeta in Hitems. rewrite Hitems.
    rewrite positionsFrom_length, reindexFrom_length.
    rewrite positionsFrom_content, reindexFrom_content.
    split; [apply erase_length; lia |]. split; [reflexivity |].
    apply relaid_dense. intros k it Hk. rewrite reindexFrom_nth in Hk.
    destruct (nth_error _ k); [| discriminate].
    cbn in Hk. now injection Hk as <-.
  - intros Hout.
    destruct (Z.leb_spec 0 idx);
      destruct (Z.ltb_spec idx (Z.of_nat (List.length (m_items g))));
      cbn [andb]; try reflexivity; lia.
Qed.

Lemma removeItem_takes_one_out_witness :
  removeItem 7 sevenItems = sevenItems.
Proof.
  apply (removeItem_takes_one_out 7 sevenItems).
  right. unfold sevenItems, build.
  destruct (addItems_invariant (repeat plainItem 7)
              (new SCREEN_CENTER_X SCREEN_CENTER_Y HEX_ITEM_RADIUS HEX_SPACING))
    as (_ & Hlen & _).
  cbv zeta in Hlen. rewrite Hlen. cbn. lia.
Defined.

(** *** Scrolling *)

Lemma updateScrollBounds_range (g : HexagonalGrid) :
  0 <= m_maxScrollX (updateScrollBounds g) <= 32767 /\
  0 <= m_maxScrollY (updateScrollBounds g) <= 32767.
Proof.
  unfold updateScrollBounds.
  destruct (m_items g) as [| first rest]; [cbn; lia |].
  destruct (fold_left extend (first :: rest) _) as [[[minX maxX] minY] maxY].
  cbn [m_maxScrollX m_maxScrollY set_maxScroll].
  pose proof (wrap16_range (maxX - minX + m_itemRadius g * 2)) as Hw.
  pose proof (wrap16_range (maxY - minY + m_itemRadius g * 2)) as Hh.
  unfold int16_range, SCREEN_WIDTH, SCREEN_HEIGHT in *.
  set (w := wrap16 (maxX - minX + m_itemRadius g * 2)) in *.
  set (h := wrap16 (maxY - minY + m_itemRadius g * 2)) in *.
  assert (Hmx : 0 <= max 0 ((w - 360) ÷ 2) <= 32767)
    by (unfold max; destruct (Z.gtb_spec 0 ((w - 360) ÷ 2)); zdiv).
  assert (Hmy : 0 <= max 0 ((h - 360) ÷ 2) <= 32767)
    by (unfold max; destruct (Z.gtb_spec 0 ((h - 360) ÷ 2)); zdiv).
  rewrite !wrap16_small by (unfold int16_range; lia). lia.
Qed.

Lemma clamp_within (offset bound : Z) :
  0 <= bound <= 32767 ->
  let o1 := if offset >? bound then bound else offset in
  let o2 := if o1 <? - bound then wrap16 (- bound) else o1 in
  - bound <= o2 <= bound.
Proof.
  intros Hb. cbv zeta.
  rewrite (wrap16_small (- bound)) by (unfold int16_range; lia).
  destruct (Z.gtb_spec offset bound);
    match goal with |- context [?a <? ?b] => destruct (Z.ltb_spec a b) end;
    lia.
Qed.

Lemma handleDrag_within (dx dy : Z) (g : HexagonalGrid) :
  0 <= m_maxScrollX g <= 32767 -> 0 <= m_maxScrollY g <= 32767 ->
  scrollWithinBounds (handleDrag dx dy g).
Proof.
  intros Hx Hy. unfold scrollWithinBounds, handleDrag.
  cbn [m_maxScrollX m_maxScrollY m_scrollOffsetX m_scrollOffsetY set_scrollOffset].
  pose proof (clamp_within (wrap16 (m_scrollOffsetX g + dx)) _ Hx).
  pose proof (clamp_within (wrap16 (m_scrollOffsetY g + dy)) _ Hy).
  cbv zeta in *. auto.
Qed.

Lemma setScrollOffset_within (ox oy : Z) (g : HexagonalGrid) :
  0 <= m_maxScrollX g <= 32767 -> 0 <= m_maxScrollY g <= 32767 ->
  scrollWithinBounds (setScrollOffset ox oy g).
Proof.
  intros Hx Hy. unfold scrollWithinBounds, setScrollOffset.
  cbn [m_maxScrollX m_maxScrollY m_scrollOffsetX m_scrollOffsetY set_scrollOffset].
  pose proof (clamp_within ox _ Hx). pose proof (clamp_within oy _ Hy).
  cbv zeta in *. auto.
Qed.

(** Scrolling is clamped.  [addItem] and [removeItem] leave scroll bounds
    that are not negative, and a [handleDrag] or [setScrollOffset] that
    follows leaves the offset within them on both axes, whatever the
    drag or the requested offset. *)
Theorem scroll_clamped (item : GridItem) (idx dx dy ox oy : Z)
        (g : HexagonalGrid) :
  scrollWithinBounds (handleDrag dx dy (addItem item g)) /\
  scrollWithinBounds (setScrollOffset ox oy (addItem item g)) /\
  (0 <= idx < Z.of_nat (List.length (m_items g)) ->
   scrollWithinBounds (handleDrag dx dy (removeItem idx g)) /\
   scrollWithinBounds (setScrollOffset ox oy (removeItem idx g))).
Proof.
  split; [| split].
  - unfold addItem. apply handleDrag_within; apply updateScrollBounds_range.
  - unfold addItem. apply setScrollOffset_within; apply updateScrollBounds_range.
  - intros Hidx. unfold removeItem.
    destruct (Z.leb_spec 0 idx); [| lia].
    destruct (Z.ltb_spec idx (Z.of_nat (List.length (m_items g)))); [| lia].
    cbn [andb].
    split; [apply handleDrag_within | apply setScrollOffset_within];
      apply updateScrollBounds_range.
Qed.

Lemma scroll_clamped_witness :
  scrollWithinBounds
    (handleDrag 500 (-500) (addItem plainItem (new 180 180 40 10))).
Proof.
  exact (proj1 (scroll_clamped plainItem 0 500 (-500) 0 0 (new 180 180 40 10))).
Defined.

(** *** Hit-testing *)

Lemma scanFrom_first (g : HexagonalGrid) (px py : Z) (items : list GridItem) :
  forall i j : nat,
    scanFrom g px py i items = Some j ->
    forall (k : nat) (other : GridItem),
      (i + k < j)%nat -> nth_error items k = Some other ->
      visible other && hits g px py other = false.
Proof.
  induction items as [| first rest IH]; intros i j Hscan k other Hk Hnth;
    [destruct k; discriminate |].
  cbn [scanFrom] in Hscan.
  destruct k as [| k]; cbn [nth_error] in Hnth.
  - injection Hnth as <-.
    destruct (visible first); cbn [negb andb] in *; [| reflexivity].
    destruct (hits g px py first); [| reflexivity].
    injection Hscan as <-. lia.
  - assert (Hrest : scanFrom g px py (S i) rest = Some j).
    { destruct (visible first); cbn [negb] in Hscan; [| assumption].
      destruct (hits g px py first); [| assumption].
      injection Hscan as <-. lia. }
    apply (IH _ _ Hrest k other); [lia | assumption].
Qed.

(** A tap selects the first visible item under it.  When
    [getItemAtPosition] returns the item at position [i], that item is
    visible and its circle holds the touch, and no visible item before it
    does; when it returns null, no visible item holds the touch. *)
Theorem tap_selects_first_hit (g : HexagonalGrid) (px py : Z) :
  (forall i : nat,
      getItemAtPosition g px py = Some i ->
      (exists it : GridItem,
          nth_error (m_items g) i = Some it /\
          visible it = true /\ hits g px py it = true) /\
      (forall (k : nat) (other : GridItem),
          (k < i)%nat -> nth_error (m_items g) k = Some other ->
          visible other && hits g px py other = false)) /\
  (getItemAtPosition g px py = None ->
   forall (k : nat) (other : GridItem),
     nth_error (m_items g) k = Some other ->
     visible other && hits g px py other = false).
Proof.
  unfold getItemAtPosition. split.
  - intros i Hscan. split.
    + destruct (scanFrom_Some g px py _ _ _ Hscan) as (it & _ & Hnth & Hv & Hh).
      rewrite Nat.sub_0_r in Hnth. exists it. auto.
    + intros k other Hk. now apply (scanFrom_first g px py _ _ _ Hscan).
  - intros Hnone k other Hnth.
    destruct (visible other && hits g px py other) eqn:Hvh; [| reflexivity].
    exfalso. revert Hnone. generalize 0%nat.
    revert k Hnth. induction (m_items g) as [| first rest IH];
      intros k Hnth n; [destruct k; discriminate |].
    cbn [scanFrom]. destruct k as [| k]; cbn [nth_error] in Hnth.
    + injection Hnth as ->. apply andb_true_iff in Hvh as [-> ->].
      cbn. discriminate.
    + destruct (visible first); cbn [negb];
        [destruct (hits g px py first); [discriminate |] |];
        now apply (IH k).
Qed.

Lemma tap_selects_first_hit_witness :
  let g := render true (addItem plainItem (new 180 180 40 10)) in
  exists it : GridItem,
    nth_error (m_items g) 0 = Some it /\
    visible it = true /\ hits g 190 170 it = true.
Proof.
  cbv zeta.
  apply (proj1 (tap_selects_first_hit
                  (render true (addItem plainItem (new 180 180 40 10)))
                  190 170) 0%nat).
  vm_compute. reflexivity.
Defined.

(** *** Rendering *)

(** [render] with a sprite marks each item visible exactly when its
    scrolled position is within the screen widened by the item radius
    plus 10, and changes nothing else; rendering again changes nothing;
    without a sprite the grid is left as it is. *)
Theorem render_recomputes_visibility (g : HexagonalGrid) :
  m_items (render true g)
  = map (fun it => item_set_visible (isItemVisible g it) it) (m_items g) /\
  render true (render true g) = render true g /\
  render false g = g.
Proof.
  split; [reflexivity |]. split; [| reflexivity].
  unfold render. cbn [negb]. unfold set_items.
  cbn [m_items m_centerX m_centerY m_itemRadius m_spacing m_scrollOffsetX
       m_scrollOffsetY m_maxScrollX m_maxScrollY m_hexDistance
       m_smoothScrolling].
  f_equal. rewrite map_map. apply map_ext. intros it.
  destruct it. reflexivity.
Qed.

End HexLayout.

(** ** The frame buffer: what gets flushed *)

Module FrameFlush.
Import CInt CIntFacts Config Frame FrameProofs.
Local Open Scope Z_scope.

(** The clamping of [markDirty] on one axis: start and extent after the
    two tests against the surface, for [int16_t] arguments and a surface
    of 360. *)
Lemma clamp_axis (p e : Z) :
  int16_range p -> int16_range e ->
  let '(p1, e1) := if p <? 0 then (0, wrap16 (e + p)) else (p, e) in
  let e2 := if p1 + e1 >? 360 then wrap16 (360 - p1) else e1 in
  0 <= p1 /\ (0 < e2 -> p1 + e2 <= 360) /\
  (forall q : Z, 0 <= q < 360 -> p <= q < p + e -> p1 <= q < p1 + e2).
Proof.
  unfold int16_range. intros Hp He.
  destruct (Z.ltb_spec p 0) as [Hneg | Hpos].
  - pose proof (wrap16_range (e + p)) as Hw. unfold int16_range in Hw.
    destruct (Z.gtb_spec (0 + wrap16 (e + p)) 360) as [Hbig | Hsmall].
    + change (wrap16 (360 - 0)) with 360.
      split; [lia |]. split; [lia |]. intros q Hq Hin. lia.
    + split; [lia |]. split; [lia |]. intros q Hq Hin.
      rewrite wrap16_small by (unfold int16_range; lia). lia.
  - destruct (Z.gtb_spec (p + e) 360) as [Hbig | Hsmall].
    + rewrite wrap16_small by (unfold int16_range; lia).
      split; [lia |]. split; [lia |]. intros q Hq Hin. lia.
    + split; [lia |]. split; [lia |]. intros q Hq Hin. lia.
Qed.

Lemma markDirty_regionOnSurface (px py w h : Z) (fb : FrameBuffer) :
  int16_range px -> int16_range py -> int16_range w -> int16_range h ->
  regionOnSurface fb -> regionOnSurface (markDirty px py w h fb).
Proof.
  intros Hpx Hpy Hw Hh Hreg. unfold markDirty.
  destruct (m_dirtyTracking fb); cbn [negb]; [| assumption].
  pose proof (clamp_axis px w Hpx Hw) as Hx.
  pose proof (clamp_axis py h Hpy Hh) as Hy.
  unfold SCREEN_WIDTH, SCREEN_HEIGHT.
  destruct (if px <? 0 then (0, wrap16 (w + px)) else (px, w)) as [px1 w1].
  destruct (if py <? 0 then (0, wrap16 (h + py)) else (py, h)) as [py1 h1].
  cbv zeta in Hx, Hy.
  set (w2 := if px1 + w1 >? 360 then wrap16 (360 - px1) else w1) in *.
  set (h2 := if py1 + h1 >? 360 then wrap16 (360 - py1) else h1) in *.
  destruct Hx as (Hx0 & Hx1 & _). destruct Hy as (Hy0 & Hy1 & _).
  destruct (Z.leb_spec w2 0); [assumption |].
  destruct (Z.leb_spec h2 0); [assumption |]. cbn [orb].
  unfold regionOnSurface, inBounds, SCREEN_WIDTH, SCREEN_HEIGHT in *.
  cbn [regionRect rx ry rw rh] in *.
  destruct (dirty (m_dirtyRegion fb)); cbn [negb];
    cbn [m_dirtyRegion set_dirtyRegion x y width height].
  - rewrite !min_Zmin, !max_Zmax.
    rewrite (wrap16_small (Z.min _ px1)) by (unfold int16_range; lia).
    rewrite (wrap16_small (Z.min _ py1)) by (unfold int16_range; lia).
    rewrite (wrap16_small (Z.max _ (px1 + w2))) by (unfold int16_range; lia).
    rewrite (wrap16_small (Z.max _ (py1 + h2))) by (unfold int16_range; lia).
    rewrite !wrap16_small by (unfold int16_range; lia). lia.
  - lia.
Qed.

Lemma endFrame_region (fullUpdate : bool) (fb : FrameBuffer) :
  regionRect (m_dirtyRegion (endFrame fullUpdate fb))
  = regionRect (m_dirtyRegion fb).
Proof.
  unfold endFrame. destruct (m_initialized fb); cbn [negb]; [| reflexivity].
  destruct (fullUpdate || negb (m_dirtyTracking (swapBuffers fb)));
    [reflexivity |].
  destruct (dirty (m_dirtyRegion (swapBuffers fb))); reflexivity.
Qed.

(** The dirty region never leaves the surface.  After the constructor
    and any sequence of [markDirty] (with any [int16_t] arguments),
    [markAllDirty], [clearDirtyFlags], [setDirtyTracking] and [endFrame]
    calls, the stored rectangle has positive width and height and lies
    within the 360 x 360 surface. *)
Theorem dirty_region_on_surface (ops : list Op) :
  regionOnSurface (fold_left apply ops new).
Proof.
  assert (Hinv : forall fb, regionOnSurface fb ->
                            regionOnSurface (fold_left apply ops fb)).
  { induction ops as [| op ops IH]; intros fb Hfb; [exact Hfb |].
    cbn [fold_left]. apply IH.
    destruct op as [px py w h | | | enabled | fullUpdate]; cbn [apply].
    - apply markDirty_regionOnSurface; try apply wrap16_range. exact Hfb.
    - unfold regionOnSurface, inBounds. cbn.
      unfold SCREEN_WIDTH, SCREEN_HEIGHT. lia.
    - exact Hfb.
    - exact Hfb.
    - unfold regionOnSurface. now rewrite endFrame_region. }
  apply Hinv.
  unfold regionOnSurface, inBounds. cbn.
  unfold SCREEN_WIDTH, SCREEN_HEIGHT. lia.
Qed.

(** [markDirty] never under-invalidates.  With tracking on, every pixel
    of the surface that lies in the rectangle passed to [markDirty] is
    pending afterwards, and every pixel that was pending before still
    is. *)
Theorem markDirty_covers (px py w h qx qy : Z) (fb : FrameBuffer) :
  m_dirtyTracking fb = true -> regionOnSurface fb ->
  int16_range px -> int16_range py -> int16_range w -> int16_range h ->
  onSurface qx qy ->
  (inRect qx qy px py w h -> pending (markDirty px py w h fb) qx qy) /\
  (pending fb qx qy -> pending (markDirty px py w h fb) qx qy).
Proof.
  intros Htrack Hreg Hpx Hpy Hw Hh [Hqx Hqy].
  unfold markDirty. rewrite Htrack. cbn [negb].
  pose proof (clamp_axis px w Hpx Hw) as Hx.
  pose proof (clamp_axis py h Hpy Hh) as Hy.
  unfold SCREEN_WIDTH, SCREEN_HEIGHT in *.
  destruct (if px <? 0 then (0, wrap16 (w + px)) else (px, w)) as [px1 w1].
  destruct (if py <? 0 then (0, wrap16 (h + py)) else (py, h)) as [py1 h1].
  cbv zeta in Hx, Hy.
  set (w2 := if px1 + w1 >? 360 then wrap16 (360 - px1) else w1) in *.
  set (h2 := if py1 + h1 >? 360 then wrap16 (360 - py1) else h1) in *.
  destruct Hx as (Hx0 & Hx1 & Hxq). destruct Hy as (Hy0 & Hy1 & Hyq).
  specialize (Hxq qx Hqx). specialize (Hyq qy Hqy).
  unfold regionOnSurface, inBounds, SCREEN_WIDTH, SCREEN_HEIGHT in Hreg.
  cbn [regionRect rx ry rw rh] in Hreg.
  unfold pending, inRect.
  destruct (Z.leb_spec w2 0) as [Hw0 | Hw0];
    [split; [intros [Hix Hiy]; specialize (Hxq Hix); lia | auto] |].
  destruct (Z.leb_spec h2 0) as [Hh0 | Hh0];
    [split; [intros [Hix Hiy]; specialize (Hyq Hiy); lia | auto] |].
  cbn [orb].
  destruct (dirty (m_dirtyRegion fb)) eqn:Hdirty; cbn [negb];
    cbn [m_dirtyRegion set_dirtyRegion x y width height dirty].
  - rewrite !min_Zmin, !max_Zmax.
    rewrite (wrap16_small (Z.min _ px1)) by (unfold int16_range; lia).
    rewrite (wrap16_small (Z.min _ py1)) by (unfold int16_range; lia).
    rewrite (wrap16_small (Z.max _ (px1 + w2))) by (unfold int16_range; lia).
    rewrite (wrap16_small (Z.max _ (py1 + h2))) by (unfold int16_range; lia).
    rewrite !wrap16_small by (unfold int16_range; lia).
    split.
    + intros [Hix Hiy]. specialize (Hxq Hix). specialize (Hyq Hiy).
      split; [reflexivity | lia].
    + intros (_ & Hox & Hoy). split; [reflexivity | lia].
  - split.
    + intros [Hix Hiy]. specialize (Hxq Hix). specialize (Hyq Hiy).
      split; [reflexivity | lia].
    + intros (Hd & _). discriminate.
Qed.

Lemma markDirty_covers_witness :
  pending (markDirty (-20) 350 100 100 (clearDirtyFlags new)) 5 355.
Proof.
  assert (Hsurface : regionOnSurface (clearDirtyFlags new))
    by (unfold regionOnSurface, inBounds; repeat split; vm_compute;
        first [reflexivity | intro; discriminate]).
  assert (Hin : inRect 5 355 (-20) 350 100 100)
    by (unfold inRect; lia).
  assert (Hon : onSurface 5 355)
    by (unfold onSurface, SCREEN_WIDTH, SCREEN_HEIGHT; lia).
  apply (proj1 (markDirty_covers (-20) 350 100 100 5 355 (clearDirtyFlags new)
                  eq_refl Hsurface
                  ltac:(unfold int16_range; lia) ltac:(unfold int16_range; lia)
                  ltac:(unfold int16_range; lia) ltac:(unfold int16_range; lia)
                  Hon)).
  exact Hin.
Defined.

(** [markDirty] is ignored when tracking is off, when the rectangle
    starts right of or below the surface, and when it starts on the
    surface side of an edge with no width or no height: the frame buffer
    is left exactly as it was. *)
Theorem markDirty_ignored (px py w h : Z) (fb : FrameBuffer) :
  int16_range px -> int16_range py ->
  m_dirtyTracking fb = false \/
  360 <= px \/ 360 <= py \/ (0 <= px /\ w <= 0) \/ (0 <= py /\ h <= 0) ->
  markDirty px py w h fb = fb.
Proof.
  unfold int16_range. intros Hpx Hpy Hcase. unfold markDirty.
  destruct (m_dirtyTracking fb) eqn:Htrack; cbn [negb]; [| reflexivity].
  destruct Hcase as [Hc | Hcase]; [discriminate |].
  unfold SCREEN_WIDTH, SCREEN_HEIGHT.
  assert (Hxcase : 360 <= px \/ (0 <= px /\ w <= 0) ->
                   let '(px1, w1) := if px <? 0 then (0, wrap16 (w + px))
                                     else (px, w) in
                   (if px1 + w1 >? 360 then wrap16 (360 - px1) else w1) <= 0).
  { intros Hc. destruct (Z.ltb_spec px 0); [lia |].
    destruct (Z.gtb_spec (px + w) 360);
      [rewrite wrap16_small by (unfold int16_range; lia) |]; lia. }
  assert (Hycase : 360 <= py \/ (0 <= py /\ h <= 0) ->
                   let '(py1, h1) := if py <? 0 then (0, wrap16 (h + py))
                                     else (py, h) in
                   (if py1 + h1 >? 360 then wrap16 (360 - py1) else h1) <= 0).
  { intros Hc. destruct (Z.ltb_spec py 0); [lia |].
    destruct (Z.gtb_spec (py + h) 360);
      [rewrite wrap16_small by (unfold int16_range; lia) |]; lia. }
  destruct (if px <? 0 then (0, wrap16 (w + px)) else (px, w)) as [px1 w1].
  destruct (if py <? 0 then (0, wrap16 (h + py)) else (py, h)) as [py1 h1].
  set (w2 := if px1 + w1 >? 360 then wrap16 (360 - px1) else w1) in *.
  set (h2 := if py1 + h1 >? 360 then wrap16 (360 - py1) else h1) in *.
  assert (Hzero : w2 <= 0 \/ h2 <= 0) by (destruct Hcase as [? | [? | [? | ?]]]; auto).
  destruct (Z.leb_spec w2 0); [reflexivity |].
  destruct (Z.leb_spec h2 0); [reflexivity | lia].
Qed.

Lemma markDirty_ignored_witness :
  markDirty 400 10 50 50 new = new.
Proof.
  apply (markDirty_ignored 400 10 50 50 new); unfold int16_range; lia.
Defined.

(** *** Frames *)

(** Mark, then flush.  From a clean state with tracking on, [markDirty]
    on a rectangle of the surface followed by a partial [endFrame]
    pushes exactly that rectangle and leaves the region clean; a second
    partial [endFrame] with nothing marked in between pushes nothing. *)
Theorem partial_frame_flushes_once (r : Rect) (fb : FrameBuffer) :
  m_initialized fb = true -> m_dirtyTracking fb = true ->
  dirty (m_dirtyRegion fb) = false -> inBounds r ->
  let fb1 := endFrame false (markDirtyRect r fb) in
  flushed fb1 = FlushRegion (rx r) (ry r) (rw r) (rh r) :: flushed fb /\
  dirty (m_dirtyRegion fb1) = false /\
  flushed (endFrame false fb1) = flushed fb1.
Proof.
  intros Hinit Htrack Hclean Hr. cbv zeta.
  rewrite (markDirty_adopts r fb Htrack Hclean Hr).
  unfold endFrame.
  cbn [m_initialized set_dirtyRegion swapBuffers m_dirtyTracking m_dirtyRegion
       clearDirtyFlags push dirty x y width height flushed orb negb].
  rewrite Hinit, Htrack.
  cbn [m_initialized set_dirtyRegion swapBuffers m_dirtyTracking m_dirtyRegion
       clearDirtyFlags push dirty x y width height flushed orb negb countFrame].
  rewrite Hinit, Htrack.
  cbn [m_initialized set_dirtyRegion swapBuffers m_dirtyTracking m_dirtyRegion
       clearDirtyFlags push dirty x y width height flushed orb negb countFrame].
  auto.
Qed.

Lemma partial_frame_flushes_once_witness :
  flushed (endFrame false
             (markDirtyRect (mkRect 10 20 30 40) (clearDirtyFlags new)))
  = [FlushRegion 10 20 30 40].
Proof.
  apply (partial_frame_flushes_once (mkRect 10 20 30 40) (clearDirtyFlags new));
    try reflexivity.
  unfold inBounds, SCREEN_WIDTH, SCREEN_HEIGHT. cbn. lia.
Defined.

(** A full update does not clean the region.  [endFrame(true)] pushes the
    whole surface and leaves the dirty flag as it was, so with tracking
    on a dirty region is pushed once more by the partial [endFrame] that
    follows. *)
Theorem full_frame_keeps_region_pending (fb : FrameBuffer) :
  m_initialized fb = true -> m_dirtyTracking fb = true ->
  dirty (m_dirtyRegion fb) = true ->
  m_dirtyRegion (endFrame true fb) = m_dirtyRegion fb /\
  flushed (endFrame false (endFrame true fb))
  = FlushRegion (x (m_dirtyRegion fb)) (y (m_dirtyRegion fb))
                (width (m_dirtyRegion fb)) (height (m_dirtyRegion fb))
    :: FlushFull :: flushed fb.
Proof.
  intros Hinit Htrack Hdirty. unfold endFrame.
  cbn [m_initialized set_dirtyRegion swapBuffers m_dirtyTracking m_dirtyRegion
       clearDirtyFlags push dirty x y width height flushed orb negb].
  rewrite Hinit.
  cbn [m_initialized set_dirtyRegion swapBuffers m_dirtyTracking m_dirtyRegion
       clearDirtyFlags push dirty x y width height flushed orb negb].
  rewrite Hinit, Htrack, Hdirty.
  cbn [m_initialized set_dirtyRegion swapBuffers m_dirtyTracking m_dirtyRegion
       clearDirtyFlags push dirty x y width height flushed orb negb].
  auto.
Qed.

Lemma full_frame_keeps_region_pending_witness :
  flushed (endFrame false (endFrame true new))
  = [FlushRegion 0 0 360 360; FlushFull].
Proof.
  apply (full_frame_keeps_region_pending new); reflexivity.
Defined.

(** The two buffers alternate.  Each [endFrame] of an initialized frame
    buffer exchanges front and back, whatever it pushes: the buffer drawn
    into becomes the one shown, two frames bring the first one back, and
    the two never coincide if they did not before. *)
Theorem buffers_alternate (full1 full2 : bool) (fb : FrameBuffer) :
  m_initialized fb = true ->
  m_frontBuffer (endFrame full1 fb) = m_backBuffer fb /\
  m_backBuffer (endFrame full1 fb) = m_frontBuffer fb /\
  m_frontBuffer (endFrame full2 (endFrame full1 fb)) = m_frontBuffer fb /\
  m_backBuffer (endFrame full2 (endFrame full1 fb)) = m_backBuffer fb /\
  (m_frontBuffer fb <> m_backBuffer fb ->
   m_frontBuffer (endFrame full1 fb) <> m_backBuffer (endFrame full1 fb)).
Proof.
  intros Hinit.
  assert (Hone : forall full fb0, m_initialized fb0 = true ->
                   m_frontBuffer (endFrame full fb0) = m_backBuffer fb0 /\
                   m_backBuffer (endFrame full fb0) = m_frontBuffer fb0 /\
                   m_initialized (endFrame full fb0) = true).
  { intros full fb0 H0. unfold endFrame. rewrite H0. cbn [negb].
    destruct (full || negb (m_dirtyTracking (swapBuffers fb0)));
      [cbn; auto |].
    destruct (dirty (m_dirtyRegion (swapBuffers fb0))); cbn; auto. }
  destruct (Hone full1 fb Hinit) as (Hf1 & Hb1 & Hi1).
  destruct (Hone full2 _ Hi1) as (Hf2 & Hb2 & _).
  rewrite Hf2, Hb2, Hf1, Hb1. repeat split; auto.
Qed.

Lemma buffers_alternate_witness :
  m_frontBuffer (endFrame false new) = 1%nat.
Proof. apply (buffers_alternate false false new). reflexivity. Defined.

(** [isDirty] misses no overlap.  With tracking on and a dirty region,
    [isDirty] answers true for every rectangle that shares a pixel with
    the region; with tracking off or no dirty region it answers
    false. *)
Theorem isDirty_misses_no_overlap (px py w h : Z) (fb : FrameBuffer) :
  (m_dirtyTracking fb = true ->
   (exists qx qy : Z, inRect qx qy px py w h /\ pending fb qx qy) ->
   isDirty px py w h fb = true) /\
  (m_dirtyTracking fb = false \/ dirty (m_dirtyRegion fb) = false ->
   isDirty px py w h fb = false).
Proof.
  unfold isDirty, inRect, pending. split.
  - intros Htrack (qx & qy & (Hx & Hy) & Hd & Hrx & Hry).
    rewrite Htrack, Hd. cbn [negb orb].
    destruct (Z.ltb_spec (px + w) (x (m_dirtyRegion fb))); [lia |].
    destruct (Z.gtb_spec px (x (m_dirtyRegion fb) + width (m_dirtyRegion fb)));
      [lia |].
    destruct (Z.ltb_spec (py + h) (y (m_dirtyRegion fb))); [lia |].
    destruct (Z.gtb_spec py (y (m_dirtyRegion fb) + height (m_dirtyRegion fb)));
      [lia |].
    reflexivity.
  - intros [-> | ->]; cbn [negb orb]; [reflexivity |].
    now rewrite orb_true_r.
Qed.

Lemma isDirty_misses_no_overlap_witness :
  isDirty 350 350 100 100 new = true.
Proof.
  apply (isDirty_misses_no_overlap 350 350 100 100 new); [reflexivity |].
  exists 355, 355. unfold inRect, pending.
  repeat split; vm_compute; first [reflexivity | intro; discriminate].
Defined.

End FrameFlush.

(** ** The page router: registration, navigation, redirects *)

Module NavRoutes.
Import Nav.
Local Open Scope string_scope.
Local Open Scope list_scope.

(** *** The route table *)

Lemma findIn_none_existsb (routes : list Route) (p : string) :
  findIn routes p = None <->
  existsb (fun existing => String.eqb (path existing) p) routes = false.
Proof.
  induction routes as [| route rest IH]; cbn [findIn existsb]; [tauto |].
  destruct (String.eqb (path route) p); cbn [orb]; [| exact IH].
  split; discriminate.
Qed.

Lemma findIn_none_notin (routes : list Route) (p : string) :
  findIn routes p = None <-> ~ In p (map path routes).
Proof.
  induction routes as [| route rest IH]; cbn [findIn map In]; [tauto |].
  destruct (String.eqb_spec (path route) p) as [Heq | Hne].
  - split; [discriminate | intros H; exfalso; apply H; now left].
  - rewrite IH. tauto.
Qed.

Lemma findIn_app (l1 l2 : list Route) (p : string) :
  findIn (l1 ++ l2) p =
  match findIn l1 p with Some r => Some r | None => findIn l2 p end.
Proof.
  induction l1 as [| route rest IH]; cbn [app findIn]; [reflexivity |].
  destruct (String.eqb (path route) p); [reflexivity | exact IH].
Qed.

Lemma NoDup_snoc (l : list string) (a : string) :
  NoDup l -> ~ In a l -> NoDup (l ++ [a]).
Proof.
  induction l as [| b l IH]; cbn [app]; intros Hl Ha.
  - constructor; [intros [] | constructor].
  - inversion Hl as [| ? ? Hb Hl']; subst. constructor.
    + rewrite in_app_iff. cbn [In]. intros [Hin | [Heq | []]];
        [contradiction | subst; apply Ha; now left].
    + apply IH; [assumption |]. intros Hin. apply Ha. now right.
Qed.

Lemma registerRoute_uniquePaths (route : Route) (s : NavigationController) :
  uniquePaths s -> uniquePaths (registerRoute route s).
Proof.
  unfold uniquePaths, registerRoute. intros Hs.
  destruct (existsb _ (m_routes s)) eqn:Hex; [assumption |].
  cbn [m_routes set_routes]. rewrite map_app. cbn [map].
  apply findIn_none_existsb, findIn_none_notin in Hex.
  now apply NoDup_snoc.
Qed.

(** Paths stay unique.  However many routes are registered, in whatever
    order and with whatever repetitions, no two entries of the route
    table have the same path. *)
Theorem registered_paths_unique (routes : list Route) :
  uniquePaths (fold_left (fun s route => registerRoute route s) routes new).
Proof.
  assert (Hinv : forall s, uniquePaths s ->
            uniquePaths (fold_left (fun s route => registerRoute route s)
                                   routes s)).
  { induction routes as [| route routes IH]; intros s Hs; [exact Hs |].
    cbn [fold_left]. apply IH. now apply registerRoute_uniquePaths. }
  apply Hinv. unfold uniquePaths. cbn. constructor.
Qed.

(** Register, then look up.  After [registerRoute], [findRoute] on the
    route's path finds the route registered first under that path: the
    new route if the path was free, the old one if it was taken (the new
    one is dropped).  Every other path resolves as before. *)
Theorem register_then_find (route : Route) (s : NavigationController) :
  findRoute (registerRoute route s) (path route)
  = match findRoute s (path route) with
    | Some first => Some first
    | None => Some route
    end /\
  (forall q : string,
      q <> path route ->
      findRoute (registerRoute route s) q = findRoute s q).
Proof.
  unfold findRoute, registerRoute.
  destruct (existsb _ (m_routes s)) eqn:Hex.
  - split; [| reflexivity].
    destruct (findIn (m_routes s) (path route)) eqn:Hfind; [reflexivity |].
    apply findIn_none_existsb in Hfind. congruence.
  - cbn [m_routes set_routes]. split.
    + rewrite findIn_app. apply findIn_none_existsb in Hex. rewrite Hex.
      cbn [findIn]. now rewrite String.eqb_refl.
    + intros q Hq. rewrite findIn_app.
      destruct (findIn (m_routes s) q); [reflexivity |].
      cbn [findIn]. destruct (String.eqb_spec (path route) q); congruence.
Qed.

Lemma register_then_find_witness :
  findRoute (registerRoute homeRoute registered) "/settings"
  = findRoute registered "/settings".
Proof.
  apply (register_then_find homeRoute registered). discriminate.
Defined.

(** *** Pushing a page *)

Lemma stack_split (st : list PageView) :
  st <> [] -> st = removelast st ++ [back st].
Proof. intros Hne. unfold back. now apply app_removelast_last. Qed.

(** The loop that empties the stack deletes every page, the last one
    first, and touches nothing else. *)
Lemma clearPages_spec (n : nat) :
  forall s : NavigationController,
    (List.length (m_stack s) <= n)%nat ->
    clearPages n s =
      mkNavigationController [] (m_routes s) (m_currentRoute s) (m_rootRoute s)
        (allocated s) (map Deleted (m_stack s) ++ history s).
Proof.
  induction n as [| n IH]; intros s Hlen; cbn [clearPages].
  - destruct s as [st rs cr rr al hi]. cbn in *.
    destruct st; [reflexivity | cbn in Hlen; lia].
  - destruct (m_stack s) as [| p st] eqn:Hst.
    + destruct s as [st0 rs cr rr al hi]. cbn in *. now subst.
    + assert (Hne : p :: st <> []) by discriminate.
      pose proof (stack_split (p :: st) Hne) as Hsplit.
      rewrite IH.
      * unfold cleanupPage, record, set_stack.
        cbn [m_stack m_routes m_currentRoute m_rootRoute allocated history].
        f_equal.
        rewrite Hsplit at 3. rewrite map_app, <- app_assoc. reflexivity.
      * unfold cleanupPage, record, set_stack. cbn [m_stack].
        assert (Hl : List.length (p :: st)
                     = S (List.length (removelast (p :: st))))
          by (rewrite Hsplit at 1; rewrite length_app; cbn [List.length]; lia).
        lia.
Qed.

Lemma navigateTo_opens (fuel : nat) (s : NavigationController) (p : string)
      (route : Route) (page : PageView) (clearStack : bool) :
  opensWith s p route page ->
  navigateTo (S fuel) (Some p) clearStack s
  = Some (true, pushed clearStack route page s).
Proof.
  intros (Hfind & Hact & Hmake). cbn [navigateTo].
  rewrite Hfind, Hact. cbn [negb].
  destruct clearStack.
  - rewrite clearPages_spec by lia. unfold getCurrentPage.
    cbn [m_stack allocated]. rewrite Hmake. reflexivity.
  - unfold getCurrentPage.
    destruct (m_stack s) as [| p0 st] eqn:Hst.
    + rewrite Hmake. unfold pushed. rewrite Hst.
      destruct s; cbn in *; subst; reflexivity.
    + unfold record at 1. cbn [allocated]. rewrite Hmake.
      unfold pushed. rewrite Hst.
      destruct s; cbn in *; subst; reflexivity.
Qed.

Lemma back_snoc (st : list PageView) (page : PageView) :
  back (st ++ [page]) = page.
Proof. unfold back. apply last_last. Qed.

Lemma pushed_top (clearStack : bool) (route : Route) (page : PageView)
      (s : NavigationController) :
  getCurrentPage (pushed clearStack route page s) = Some page /\
  getStackDepth (pushed clearStack route page s)
  = (if clearStack then 1 else S (getStackDepth s))%nat.
Proof.
  unfold getCurrentPage, getStackDepth, pushed. cbn [m_stack].
  set (kept := if clearStack then [] else m_stack s).
  rewrite length_app. cbn [List.length].
  split.
  - destruct (kept ++ [page]) eqn:Hk;
      [destruct kept; discriminate | rewrite <- Hk; now rewrite back_snoc].
  - unfold kept. destruct clearStack; cbn [List.length]; lia.
Qed.

(** A successful navigation.  When the path is registered, its route may
    be activated and its factory makes a page, [navigateTo] returns true
    with the new page on top and recorded as current; with [clearStack]
    the stack holds that page alone (depth 1, every old page deleted),
    without it the old pages stay below (depth one more); the page's
    [onEnter] is the last call made. *)
Theorem navigateTo_pushes (fuel : nat) (s : NavigationController) (p : string)
        (route : Route) (page : PageView) (clearStack : bool) :
  opensWith s p route page ->
  exists s' : NavigationController,
    navigateTo (S fuel) (Some p) clearStack s = Some (true, s') /\
    m_stack s' = (if clearStack then [] else m_stack s) ++ [page] /\
    getStackDepth s' = (if clearStack then 1 else S (getStackDepth s))%nat /\
    getCurrentPage s' = Some page /\
    getCurrentRoute s' = Some route /\
    hd_error (history s') = Some (OnEnter page).
Proof.
  intros Hopen. exists (pushed clearStack route page s).
  destruct (pushed_top clearStack route page s) as [Htop Hdepth].
  rewrite (navigateTo_opens fuel s p route page clearStack Hopen).
  repeat split; assumption.
Qed.

Lemma navigateTo_pushes_witness :
  exists s' : NavigationController,
    navigateTo 1 (Some "/settings") true atSettings = Some (true, s') /\
    m_stack s' = [] ++ [mkPageView "Settings" 2] /\
    getStackDepth s' = 1%nat /\
    getCurrentPage s' = Some (mkPageView "Settings" 2) /\
    getCurrentRoute s' = Some settingsRoute /\
    hd_error (history s') = Some (OnEnter (mkPageView "Settings" 2)).
Proof.
  apply (navigateTo_pushes 0 atSettings "/settings" settingsRoute
           (mkPageView "Settings" 2) true).
  unfold opensWith. repeat split; vm_compute; reflexivity.
Defined.

(** [requiresAuth] alone protects nothing.  A route that requires
    authentication but has no guard is opened like any other: the flag is
    read and the navigation goes ahead. *)
Theorem auth_without_guard_not_enforced
        (fuel : nat) (s : NavigationController) (p : string)
        (route : Route) (page : PageView) (clearStack : bool) :
  findRoute s p = Some route ->
  requiresAuth route = true -> guard route = None ->
  createView route (allocated s) = Some page ->
  exists s' : NavigationController,
    navigateTo (S fuel) (Some p) clearStack s = Some (true, s') /\
    getCurrentPage s' = Some page /\ getCurrentRoute s' = Some route.
Proof.
  intros Hfind Hauth Hguard Hmake.
  assert (Hopen : opensWith s p route page).
  { unfold opensWith, canActivateRoute. rewrite Hguard, Hauth. auto. }
  exists (pushed clearStack route page s).
  rewrite (navigateTo_opens fuel s p route page clearStack Hopen).
  destruct (pushed_top clearStack route page s) as [Htop _]. auto.
Qed.

Lemma auth_without_guard_not_enforced_witness :
  exists s' : NavigationController,
    navigateTo 1 (Some "/settings") false atHome = Some (true, s') /\
    getCurrentPage s' = Some (mkPageView "Settings" 1) /\
    getCurrentRoute s' = Some settingsRoute.
Proof.
  apply (auth_without_guard_not_enforced 0 atHome "/settings" settingsRoute
           (mkPageView "Settings" 1) false);
    vm_compute; reflexivity.
Defined.

(** *** Failures *)

(** A factory that returns null.  [navigateTo] then returns false and
    pushes nothing, but what it did before calling the factory stays
    done: without [clearStack] the page on top has received [onExit] and
    is still on top, not entered again; with [clearStack] the stack is
    empty and every page deleted. *)
Theorem navigateTo_factory_null
        (fuel : nat) (s : NavigationController) (p : string)
        (route : Route) (clearStack : bool) :
  findRoute s p = Some route -> canActivateRoute route = true ->
  createView route (allocated s) = None ->
  exists s' : NavigationController,
    navigateTo (S fuel) (Some p) clearStack s = Some (false, s') /\
    m_currentRoute s' = m_currentRoute s /\
    m_stack s' = (if clearStack then [] else m_stack s) /\
    history s' =
      (if clearStack then map Deleted (m_stack s) ++ history s
       else match m_stack s with
            | [] => history s
            | _ :: _ => OnExit (back (m_stack s)) :: history s
            end).
Proof.
  intros Hfind Hact Hmake. cbn [navigateTo].
  rewrite Hfind, Hact. cbn [negb].
  destruct clearStack.
  - rewrite clearPages_spec by lia. unfold getCurrentPage.
    cbn [m_stack allocated]. rewrite Hmake.
    eexists. split; [reflexivity |]. cbn. auto.
  - unfold getCurrentPage. destruct (m_stack s) as [| p0 st] eqn:Hst.
    + rewrite Hmake. exists s. rewrite Hst. auto.
    + unfold record at 1. cbn [allocated]. rewrite Hmake.
      eexists. split; [reflexivity |]. cbn. rewrite Hst. auto.
Qed.

Lemma navigateTo_factory_null_witness :
  let broken := mkRoute "/broken" "Broken" (fun _ => None) None false in
  exists s' : NavigationController,
    navigateTo 1 (Some "/broken") false (registerRoute broken atHome)
    = Some (false, s') /\
    m_currentRoute s' = Some homeRoute /\
    m_stack s' = [mkPageView "Home" 0] /\
    history s' = [OnExit (mkPageView "Home" 0); OnEnter (mkPageView "Home" 0)].
Proof.
  cbv zeta.
  apply (navigateTo_factory_null 0
           (registerRoute (mkRoute "/broken" "Broken" (fun _ => None) None false)
                          atHome)
           "/broken" (mkRoute "/broken" "Broken" (fun _ => None) None false)
           false);
    vm_compute; reflexivity.
Defined.

(** *** Going back *)

(** Push, then pop.  On a stack that has a page, a successful
    [navigateTo] without [clearStack] followed by [goBack] gives the
    stack back as it was; the popped page gets [onExit] and is deleted,
    the page below gets [onEnter] again, and the current route is null
    afterwards, not the route of the page that is on top. *)
Theorem navigate_then_back (fuel : nat) (s : NavigationController) (p : string)
        (route : Route) (page : PageView) :
  opensWith s p route page -> m_stack s <> [] ->
  exists s1 s2 : NavigationController,
    navigateTo (S fuel) (Some p) false s = Some (true, s1) /\
    goBack s1 = (true, s2) /\
    m_stack s2 = m_stack s /\
    getCurrentRoute s2 = None /\
    history s2 =
      [OnEnter (back (m_stack s)); Deleted page; OnExit page;
       OnEnter page; OnExit (back (m_stack s))] ++ history s.
Proof.
  intros Hopen Hne.
  exists (pushed false route page s).
  rewrite (navigateTo_opens fuel s p route page false Hopen).
  destruct (m_stack s) as [| p0 st] eqn:Hst; [contradiction |].
  unfold goBack, canGoBack, pushed. rewrite Hst.
  cbn [m_stack]. rewrite length_app. cbn [List.length].
  destruct (Nat.ltb_spec 1 (S (List.length st) + 1)) as [_ | Hbad]; [| lia].
  cbn [negb]. unfold cleanupPage, record, set_stack, set_currentRoute.
  cbn [m_stack m_routes m_currentRoute m_rootRoute allocated history].
  rewrite (removelast_last (p0 :: st) page), (back_snoc (p0 :: st) page).
  eexists. split; [reflexivity |]. split; [reflexivity |].
  cbn. auto.
Qed.

Lemma navigate_then_back_witness :
  exists s1 s2 : NavigationController,
    navigateTo 1 (Some "/settings") false atHome = Some (true, s1) /\
    goBack s1 = (true, s2) /\
    m_stack s2 = m_stack atHome /\
    getCurrentRoute s2 = None /\
    history s2 =
      [OnEnter (back (m_stack atHome)); Deleted (mkPageView "Settings" 1);
       OnExit (mkPageView "Settings" 1); OnEnter (mkPageView "Settings" 1);
       OnExit (back (m_stack atHome))] ++ history atHome.
Proof.
  apply (navigate_then_back 0 atHome "/settings" settingsRoute
           (mkPageView "Settings" 1)).
  - unfold opensWith. repeat split; vm_compute; reflexivity.
  - vm_compute. discriminate.
Defined.

(** *** Guards and redirects *)

Lemma refused_step (fuel : nat) (s : NavigationController) (p q : string)
      (clearStack : bool) :
  refusedTo s p q ->
  navigateTo (S fuel) (Some p) clearStack s
  = if String.eqb q p then Some (false, s)
    else navigateTo fuel (Some q) false s.
Proof.
  intros (route & g & Hfind & Hguard & Hdeny & Hredirect).
  cbn [navigateTo]. rewrite Hfind. unfold canActivateRoute.
  rewrite Hguard, Hdeny. cbn [negb]. rewrite Hredirect.
  destruct (String.eqb q p); reflexivity.
Qed.

(** A redirect drops [clearStack].  When the guard of the requested route
    refuses and redirects to another path whose route opens, the
    navigation succeeds on the redirect target, and the stack is not
    cleared even if [clearStack] was asked for: the new page goes on top
    of the pages that were there. *)
Theorem redirect_drops_clearStack
        (fuel : nat) (s : NavigationController) (p q : string)
        (route : Route) (page : PageView) (clearStack : bool) :
  refusedTo s p q -> q <> p -> opensWith s q route page ->
  exists s' : NavigationController,
    navigateTo (S (S fuel)) (Some p) clearStack s = Some (true, s') /\
    m_stack s' = m_stack s ++ [page] /\
    getStackDepth s' = S (getStackDepth s) /\
    getCurrentRoute s' = Some route.
Proof.
  intros Href Hne Hopen.
  rewrite (refused_step (S fuel) s p q clearStack Href).
  destruct (String.eqb_spec q p) as [Heq | _]; [contradiction |].
  rewrite (navigateTo_opens fuel s q route page false Hopen).
  exists (pushed false route page s).
  destruct (pushed_top false route page s) as [_ Hdepth].
  repeat split; assumption.
Qed.

Lemma redirect_drops_clearStack_witness :
  let denied := mkRoute "/vault" "Vault" (fun n => Some (mkPageView "Vault" n))
                        (Some (mkRouteGuard (fun _ => false) "/settings"))
                        true in
  exists s' : NavigationController,
    navigateTo 2 (Some "/vault") true (registerRoute denied atHome)
    = Some (true, s') /\
    m_stack s' = m_stack (registerRoute denied atHome)
                 ++ [mkPageView "Settings" 1] /\
    getStackDepth s' = S (getStackDepth (registerRoute denied atHome)) /\
    getCurrentRoute s' = Some settingsRoute.
Proof.
  cbv zeta.
  apply (redirect_drops_clearStack 0 _ "/vault" "/settings" settingsRoute
           (mkPageView "Settings" 1) true).
  - unfold refusedTo. eexists. eexists.
    repeat split; vm_compute; reflexivity.
  - discriminate.
  - unfold opensWith. repeat split; vm_compute; reflexivity.
Defined.

(** The loop guard stops a route that redirects to itself, and only
    that.  When a refusing guard redirects to the requested path,
    [navigateTo] returns false and leaves the router untouched; when two
    refusing guards redirect to each other, [navigateTo] calls itself
    without end: no number of redirects followed brings a result. *)
Theorem redirect_loops (s : NavigationController) (p q : string)
        (clearStack : bool) :
  (refusedTo s p p ->
   forall fuel : nat,
     navigateTo (S fuel) (Some p) clearStack s = Some (false, s)) /\
  (refusedTo s p q -> refusedTo s q p -> p <> q ->
   forall fuel : nat, navigateTo fuel (Some p) clearStack s = None).
Proof.
  split.
  - intros Href fuel. rewrite (refused_step fuel s p p clearStack Href).
    now rewrite String.eqb_refl.
  - intros Hpq Hqp Hne fuel.
    assert (Hboth : forall c,
               navigateTo fuel (Some p) c s = None /\
               navigateTo fuel (Some q) c s = None).
    { induction fuel as [| fuel IH]; intros c; [split; reflexivity |].
      rewrite (refused_step fuel s p q c Hpq).
      rewrite (refused_step fuel s q p c Hqp).
      destruct (String.eqb_spec q p) as [Heq | _]; [congruence |].
      destruct (String.eqb_spec p q) as [Heq | _]; [congruence |].
      destruct (IH false) as [Hp Hq]. auto. }
    apply Hboth.
Qed.

Lemma redirect_loops_witness :
  let ping := mkRoute "/ping" "Ping" (fun n => Some (mkPageView "Ping" n))
                      (Some (mkRouteGuard (fun _ => false) "/pong")) false in
  let pong := mkRoute "/pong" "Pong" (fun n => Some (mkPageView "Pong" n))
                      (Some (mkRouteGuard (fun _ => false) "/ping")) false in
  navigateTo 1000 (Some "/ping") false
             (registerRoute pong (registerRoute ping new)) = None.
Proof.
  cbv zeta.
  apply (proj2 (redirect_loops _ "/ping" "/pong" false)).
  - unfold refusedTo. eexists. eexists.
    repeat split; vm_compute; reflexivity.
  - unfold refusedTo. eexists. eexists.
    repeat split; vm_compute; reflexivity.
  - discriminate.
Defined.

(** *** [init] and [reset] *)

Lemma cleanup_all (st : list PageView) :
  forall s : NavigationController,
    fold_left (fun acc page => cleanupPage page acc) st s
    = mkNavigationController (m_stack s) (m_routes s) (m_currentRoute s)
        (m_rootRoute s) (allocated s) (rev (map Deleted st) ++ history s).
Proof.
  induction st as [| page st IH]; intros s; cbn [fold_left map rev].
  - destruct s. reflexivity.
  - rewrite IH. unfold cleanupPage, record.
    cbn [m_stack m_routes m_currentRoute m_rootRoute allocated history].
    now rewrite <- app_assoc.
Qed.

(** [reset] starts over from the root.  When a root route is set and the
    route of "/" opens, [reset] deletes every page of the stack and
    leaves the root page alone on it, current and entered; when no root
    route is set it leaves the stack empty and no current route. *)
Theorem reset_reenters_root (fuel : nat) (s : NavigationController)
        (route : Route) (page : PageView) :
  (m_rootRoute s <> None -> opensWith s "/" route page ->
   exists s' : NavigationController,
     reset (S fuel) s = Some s' /\
     m_stack s' = [page] /\ getCurrentRoute s' = Some route /\
     history s' = OnEnter page :: rev (map Deleted (m_stack s)) ++ history s) /\
  (m_rootRoute s = None ->
   exists s' : NavigationController,
     reset fuel s = Some s' /\ m_stack s' = [] /\
     getCurrentRoute s' = None /\
     history s' = rev (map Deleted (m_stack s)) ++ history s).
Proof.
  unfold reset. rewrite cleanup_all.
  unfold set_currentRoute, set_stack.
  cbn [m_stack m_routes m_currentRoute m_rootRoute allocated history].
  split.
  - intros Hroot Hopen.
    destruct (m_rootRoute s) as [root |] eqn:Hr; [| contradiction].
    erewrite navigateTo_opens; [| exact Hopen].
    eexists. split; [reflexivity |]. cbn. auto.
  - intros Hroot. rewrite Hroot. eexists. split; [reflexivity |]. cbn. auto.
Qed.

Lemma reset_reenters_root_witness :
  exists s' : NavigationController,
    reset 0 atSettings = Some s' /\ m_stack s' = [] /\
    getCurrentRoute s' = None /\
    history s' = rev (map Deleted (m_stack atSettings)) ++ history atSettings.
Proof.
  apply (proj2 (reset_reenters_root 0 atSettings homeRoute (mkPageView "Home" 0))).
  reflexivity.
Defined.

(** [init] needs a root.  With no route registered under "/", [init]
    returns false and pushes nothing; with one that opens, it returns
    true, remembers that route as the root and leaves its page alone on
    the stack. *)
Theorem init_enters_root (fuel : nat) (s : NavigationController)
        (route : Route) (page : PageView) :
  (findRoute s "/" = None ->
   exists s' : NavigationController,
     init fuel s = Some (false, s') /\
     m_stack s' = m_stack s /\ m_rootRoute s' = None) /\
  (opensWith s "/" route page ->
   exists s' : NavigationController,
     init (S fuel) s = Some (true, s') /\
     m_stack s' = [page] /\ m_rootRoute s' = Some route /\
     getCurrentRoute s' = Some route).
Proof.
  unfold init, registerDefaultRoutes. split.
  - intros Hnone. rewrite Hnone. cbn [m_rootRoute set_rootRoute].
    eexists. split; [reflexivity |]. cbn. auto.
  - intros Hopen. pose proof Hopen as (Hfind & _). rewrite Hfind.
    cbn [m_rootRoute set_rootRoute].
    erewrite navigateTo_opens; [| exact Hopen].
    eexists. split; [reflexivity |]. cbn. auto.
Qed.

Lemma init_enters_root_witness :
  exists s' : NavigationController,
    init 1 registered = Some (true, s') /\
    m_stack s' = [mkPageView "Home" 0] /\
    m_rootRoute s' = Some homeRoute /\
    getCurrentRoute s' = Some homeRoute.
Proof.
  apply (proj2 (init_enters_root 0 registered homeRoute (mkPageView "Home" 0))).
  unfold opensWith. repeat split; vm_compute; reflexivity.
Defined.

End NavRoutes.
